(** * Website Buddy Actions: a shallow embedding of [src/index.js]

    The file embeds the four request handlers that carry the publishing
    logic of the service

      - [POST /github/get-file]   ([get_file])
      - [POST /github/put-file]   ([put_file])
      - [POST /deploy/upload-ftp] ([upload_ftp])
      - [POST /deploy/upload-zip] ([upload_zip])

    together with the helper [uploadBuffer].  The handlers are modelled as
    they run once [requireKey] has let the request through.  Calls to the
    outside world (Octokit, the FTP client) are recorded, in the order in
    which they are issued, in a log of [call]s; what the outside world
    answers is a parameter of the development. *)

From Stdlib Require Import Ascii String.
From stdpp Require Import base list strings gmap.

Local Open Scope string_scope.
Local Open Scope list_scope.

(** ** JavaScript strings *)

Module JsString.

Definition slash : ascii := "/"%char.

(** [s.split("/")]: the pieces between the separators; never empty. *)
Fixpoint split (s : string) : list string :=
  match s with
  | EmptyString => [EmptyString]
  | String c rest =>
      if decide (c = slash) then EmptyString :: split rest
      else match split rest with
           | [] => [String c EmptyString]
           | w :: ws => String c w :: ws
           end
  end.

(** [xs.filter(Boolean)] on an array of strings: the empty string is the
    only falsy string. *)
Definition filter_Boolean (xs : list string) : list string :=
  filter (λ x, x ≠ "") xs.

(** [xs.slice(0, -1)]: everything but the last element. *)
Definition slice_0_m1 {A} (xs : list A) : list A :=
  take (length xs - 1) xs.

(** [xs.join("/")]. *)
Definition join (xs : list string) : string := String.concat "/" xs.

(** [s.replace(/^\/+/, "")]: drop the slashes the string starts with. *)
Fixpoint strip_leading_slashes (s : string) : string :=
  match s with
  | EmptyString => EmptyString
  | String c rest =>
      if decide (c = slash) then strip_leading_slashes rest else s
  end.

(** Truthiness of an optional string field ([undefined] and [""] are
    falsy). *)
Definition truthy (x : option string) : bool :=
  match x with
  | None => false
  | Some s => bool_decide (s ≠ "")
  end.

(** [a || b] on optional strings. *)
Definition or_else (a b : option string) : option string :=
  if truthy a then a else b.

(** Does the string contain two slashes in a row? *)
Fixpoint double_slash (s : string) : bool :=
  match s with
  | String c (String c' _ as rest) =>
      (bool_decide (c = slash) && bool_decide (c' = slash)) || double_slash rest
  | _ => false
  end.

Definition starts_with_slash (s : string) : bool :=
  match s with
  | String c _ => bool_decide (c = slash)
  | EmptyString => false
  end.

Fixpoint ends_with_slash (s : string) : bool :=
  match s with
  | EmptyString => false
  | String c EmptyString => bool_decide (c = slash)
  | String _ rest => ends_with_slash rest
  end.

End JsString.

(** ** Data *)

(** A [Buffer]. *)
Definition bytes : Type := list Byte.byte.

(** A thrown [Error]: Octokit's request errors carry the HTTP status next to
    the message, and the handlers only ever read [e.message]. *)
Record js_error := JsError {
  message : string;
  err_status : option nat
}.

(** A field of a JSON request body is [None] when the key is missing
    ([undefined]) and a string otherwise; the parameters passed on to Octokit
    are the same values.

    What [octokit.repos.getContent] resolves to in [data]: an array for a
    directory, one object otherwise. *)
Inductive content_data :=
| Listing (items : list (gmap string string))
| Single (fields : gmap string string).

(** [key in data], for the two keys the handlers ask about (["content"] and
    ["sha"]); neither is a property of an array. *)
Definition has_key (key : string) (data : content_data) : bool :=
  match data with
  | Listing _ => false
  | Single fields => bool_decide (is_Some (fields !! key))
  end.

(** [data.key]. *)
Definition get_key (key : string) (data : content_data) : option string :=
  match data with
  | Listing _ => None
  | Single fields => fields !! key
  end.

(** [Array.isArray(data)]. *)
Definition isArray (data : content_data) : bool :=
  match data with
  | Listing _ => true
  | Single _ => false
  end.

Record get_content_params := GetContentParams {
  gc_owner : option string;
  gc_repo : option string;
  gc_path : option string;
  gc_ref : option string
}.

Record put_params := PutParams {
  pp_owner : option string;
  pp_repo : option string;
  pp_path : option string;
  pp_message : option string;
  pp_content : string;
  pp_sha : option string;
  pp_branch : option string
}.

(** [result.data] of [createOrUpdateFileContents]; only [content?.path] is
    read. *)
Record put_result := PutResult {
  pr_content : option (gmap string string)
}.

(** [result.data.content?.path]. *)
Definition content_path (r : put_result) : option string :=
  match pr_content r with
  | None => None
  | Some c => c !! "path"
  end.

(** An entry of the parsed archive. *)
Record zip_entry := ZipEntry {
  entryName : string;
  isDirectory : bool;
  getData : js_error + bytes
}.

Record access_options := AccessOptions {
  host : option string;
  user : option string;
  password : option string;
  secure : bool
}.

(** The calls that leave the process. *)
Inductive call :=
| GetContent (p : get_content_params)
| CreateOrUpdateFileContents (p : put_params)
| Access (o : access_options)
| EnsureDir (dir : string)
| UploadFrom (buffer : bytes) (remotePath : string)
| Close.

Definition is_close (c : call) : bool :=
  match c with Close => true | _ => false end.

Definition is_upload (c : call) : bool :=
  match c with UploadFrom _ _ => true | _ => false end.

Definition is_access (c : call) : bool :=
  match c with Access _ => true | _ => false end.

(** The body handed to [res.json] / [res.send]. *)
Inductive body :=
| ErrorBody (error : string)
| TextBody (text : string)
| PutOk (path : option string) (branch : option string)
| FtpOk (uploaded : string)
| ZipOk (uploaded : nat).

Record response := Response {
  status : nat;
  resp_body : body
}.

(** ** Effects: a log of calls and exceptions *)

(** A computation that appends to the log of calls and cannot throw. *)
Definition T (A : Type) : Type := list call → list call * A.

(** A computation that may also throw. *)
Definition M (A : Type) : Type := T (js_error + A).

Definition ret {A} (x : A) : M A := λ log, (log, inr x).

Definition throw {A} (e : js_error) : M A := λ log, (log, inl e).

Definition bind {A B} (m : M A) (k : A → M B) : M B :=
  λ log,
    match m log with
    | (log', inl e) => (log', inl e)
    | (log', inr x) => k x log'
    end.

Notation "'let*' x ':=' m 'in' k" := (bind m (λ x, k))
  (at level 10, x name, m at level 100, k at level 200, only parsing).

(** [try { m } catch (e) { h e }], for a handler that only builds a value. *)
Definition try_catch {A} (m : M A) (h : js_error → A) : T A :=
  λ log,
    match m log with
    | (log', inl e) => (log', h e)
    | (log', inr x) => (log', x)
    end.

(** [try { ... } finally { fin }] around a block that does not throw. *)
Definition finally {A} (t : T A) (fin : T unit) : T A :=
  λ log,
    let '(log', x) := t log in
    (fst (fin log'), x).

(** A computation that cannot throw, used inside one that can. *)
Definition lift {A} (t : T A) : M A :=
  λ log, let '(log', x) := t log in (log', inr x).

(** Rethrow or return a value computed outside the process. *)
Definition of_result {A} (r : js_error + A) : M A :=
  match r with
  | inl e => throw e
  | inr x => ret x
  end.

(** Run a handler on a fresh log. *)
Definition run {A} (t : T A) : list call * A := t [].

(** ** The GitHub handlers *)

(** [req.body] of [/github/get-file]. *)
Record get_file_body := GetFileBody {
  gf_owner : option string;
  gf_repo : option string;
  gf_path : option string;
  gf_ref : option string
}.

(** [req.body] of [/github/put-file]. *)
Record put_file_body := PutFileBody {
  pf_owner : option string;
  pf_repo : option string;
  pf_path : option string;
  pf_content : option string;
  pf_message : option string;
  pf_branch : option string
}.

Section GitHub.

(** The store: what the two Octokit endpoints answer. *)
Variable octokit_getContent : get_content_params → js_error + content_data.
Variable octokit_createOrUpdateFileContents : put_params → js_error + put_result.

(** [Buffer.from(s, "base64").toString("utf-8")] and
    [Buffer.from(s, "utf-8").toString("base64")]. *)
Variable base64_to_utf8 : string → string.
Variable utf8_to_base64 : string → string.

Definition getContent (p : get_content_params) : M content_data :=
  λ log, (log ++ [GetContent p], octokit_getContent p).

Definition createOrUpdateFileContents (p : put_params) : M put_result :=
  λ log, (log ++ [CreateOrUpdateFileContents p],
          octokit_createOrUpdateFileContents p).

Definition get_file (b : get_file_body) : T response :=
  try_catch
    (if negb (JsString.truthy (gf_owner b))
        || negb (JsString.truthy (gf_repo b))
        || negb (JsString.truthy (gf_path b))
     then ret (Response 400 (ErrorBody "owner, repo, and path are required"))
     else
       let* data := getContent
         {| gc_owner := gf_owner b; gc_repo := gf_repo b;
            gc_path := gf_path b; gc_ref := gf_ref b |} in
       if negb (has_key "content" data)
       then ret (Response 400 (ErrorBody "Not a file"))
       else
         ret (Response 200
                (TextBody (base64_to_utf8 (default "" (get_key "content" data))))))
    (λ e, Response 500 (ErrorBody (message e))).

(** [{ owner, repo, path, ref: branch }]. *)
Definition probe_params (b : put_file_body) : get_content_params :=
  {| gc_owner := pf_owner b; gc_repo := pf_repo b;
     gc_path := pf_path b; gc_ref := pf_branch b |}.

(** The existence probe of [put-file]: the inner [try]/[catch] that leaves
    [sha] at [undefined] when [getContent] throws. *)
Definition probe_sha (b : put_file_body) : T (option string) :=
  try_catch
    (let* data := getContent (probe_params b) in
     let sha := if has_key "sha" data then get_key "sha" data else None in
     let sha := if has_key "sha" data && isArray data then None else sha in
     ret sha)
    (λ _, None).

Definition put_file (b : put_file_body) : T response :=
  try_catch
    (if negb (JsString.truthy (pf_owner b))
        || negb (JsString.truthy (pf_repo b))
        || negb (JsString.truthy (pf_path b))
        || negb (JsString.truthy (pf_content b))
        || negb (JsString.truthy (pf_message b))
     then ret (Response 400
                 (ErrorBody "owner, repo, path, content, message are required"))
     else
       let* sha := lift (probe_sha b) in
       let b64 := utf8_to_base64 (default "" (pf_content b)) in
       let* result := createOrUpdateFileContents
         {| pp_owner := pf_owner b; pp_repo := pf_repo b;
            pp_path := pf_path b; pp_message := pf_message b;
            pp_content := b64; pp_sha := sha; pp_branch := pf_branch b |} in
       ret (Response 200
              (PutOk (pf_path b)
                     (JsString.or_else (pf_branch b) (content_path result)))))
    (λ e, Response 500 (ErrorBody (message e))).

End GitHub.

(** The version token an existence probe has observed: the [sha] of the
    single file it resolved to, if it resolved to one. *)
Definition observed_sha (probe : js_error + content_data) : option string :=
  match probe with
  | inr (Single fields) => fields !! "sha"
  | _ => None
  end.

(** The store reports that the path does not exist. *)
Definition is_not_found (e : js_error) : bool :=
  bool_decide (err_status e = Some 404).

(** ** The deployment handlers *)

(** [process.env], as far as the deployment handlers read it (the token
    Octokit is built with lies behind the answers of the store). *)
Record process_env := ProcessEnv {
  FTP_HOST : option string;
  FTP_USER : option string;
  FTP_PASS : option string
}.

(** [req.file] and the one field of [req.body] that [/deploy/upload-ftp]
    reads. *)
Record upload_ftp_request := UploadFtpRequest {
  ftp_file : option bytes;
  ftp_remotePath : option string
}.

(** [req.file] and the one field of [req.body] that [/deploy/upload-zip]
    reads. *)
Record upload_zip_request := UploadZipRequest {
  zip_file : option bytes;
  zip_basePath : option string
}.

Section Deploy.

Variable env : process_env.

(** The transfer server: whether a call of the FTP client rejects, given
    the calls made before it. *)
Variable ftp_reply : list call → call → option js_error.

(** [new AdmZip(buffer).getEntries()]; the constructor throws on a buffer
    that is not an archive. *)
Variable AdmZip : bytes → js_error + list zip_entry.

Definition perform (c : call) : M unit :=
  λ log, (log ++ [c],
          match ftp_reply log c with
          | None => inr tt
          | Some e => inl e
          end).

Definition access_opts : access_options :=
  {| host := FTP_HOST env; user := FTP_USER env;
     password := FTP_PASS env; secure := false |}.

Definition access : M unit := perform (Access access_opts).
Definition ensureDir (dir : string) : M unit := perform (EnsureDir dir).
Definition uploadFrom (buffer : bytes) (remotePath : string) : M unit :=
  perform (UploadFrom buffer remotePath).

(** [client.close()] does not throw. *)
Definition close : T unit := λ log, (log ++ [Close], tt).

(** The directories of a remote path: [parts.slice(0, -1)]. *)
Definition dirs_of (remotePath : string) : list string :=
  JsString.slice_0_m1 (JsString.filter_Boolean (JsString.split remotePath)).

Definition uploadBuffer (remotePath : string) (buffer : bytes) : M unit :=
  let dirs := dirs_of remotePath in
  let* _ := (if bool_decide (length dirs ≠ 0)
             then ensureDir ("/" +:+ JsString.join dirs)
             else ret tt) in
  uploadFrom buffer remotePath.

Definition upload_ftp (req : upload_ftp_request) : T response :=
  finally
    (try_catch
       (match ftp_file req with
        | None => ret (Response 400 (ErrorBody "No file. Use field name 'file'."))
        | Some buffer =>
            let remotePath := default "/htdocs/index.html" (ftp_remotePath req) in
            let* _ := access in
            let* _ := uploadBuffer remotePath buffer in
            ret (Response 200 (FtpOk remotePath))
        end)
       (λ e, Response 500 (ErrorBody (message e))))
    close.

(** [basePath + "/" + e.entryName.replace(/^\/+/, "")]. *)
Definition remote_path (basePath entryName : string) : string :=
  basePath +:+ "/" +:+ JsString.strip_leading_slashes entryName.

(** The [for (const e of entries)] loop. *)
Fixpoint for_entries (basePath : string) (entries : list zip_entry) : M unit :=
  match entries with
  | [] => ret tt
  | e :: rest =>
      if isDirectory e then for_entries basePath rest
      else
        let remote := remote_path basePath (entryName e) in
        let* data := of_result (getData e) in
        let* _ := uploadBuffer remote data in
        for_entries basePath rest
  end.

Definition upload_zip (req : upload_zip_request) : T response :=
  finally
    (try_catch
       (match zip_file req with
        | None => ret (Response 400
                         (ErrorBody "No zip uploaded. Use field name 'zip'."))
        | Some buffer =>
            let basePath := default "/htdocs" (zip_basePath req) in
            let* _ := access in
            let* entries := of_result (AdmZip buffer) in
            let* _ := for_entries basePath entries in
            ret (Response 200 (ZipOk (length entries)))
        end)
       (λ e, Response 500 (ErrorBody (message e))))
    close.

(** *** What the loop is expected to do

    The definitions below do not come from the handler: they describe the
    sequence of calls an archive stands for, and the handlers are compared
    with them further down. *)

(** The file entries of an archive, in archive order. *)
Definition files (entries : list zip_entry) : list zip_entry :=
  filter (λ e, isDirectory e = false) entries.

(** The names and contents of the entries up to the first one whose
    content cannot be read, and the error of that one. *)
Fixpoint readable (es : list zip_entry) : list (string * bytes) * option js_error :=
  match es with
  | [] => ([], None)
  | e :: rest =>
      match getData e with
      | inl err => ([], Some err)
      | inr data =>
          let '(l, failure) := readable rest in
          ((entryName e, data) :: l, failure)
      end
  end.

(** One upload: the directories of the remote path are ensured (when it
    has any), then the bytes are uploaded. *)
Definition upload_calls (remotePath : string) (buffer : bytes) : list call :=
  match dirs_of remotePath with
  | [] => [UploadFrom buffer remotePath]
  | dirs => [EnsureDir ("/" +:+ JsString.join dirs); UploadFrom buffer remotePath]
  end.

(** One file of the archive, named [f.1] with content [f.2]. *)
Definition entry_calls (basePath : string) (f : string * bytes) : list call :=
  upload_calls (remote_path basePath f.1) f.2.

(** The calls of a whole archive, file after file. *)
Definition plan (basePath : string) (entries : list zip_entry) : list call :=
  flat_map (entry_calls basePath) (readable (files entries)).1.

(** Issue the calls of [todo] one after the other until one of them
    rejects: the log afterwards and the rejection, if any. *)
Fixpoint attempt (log : list call) (todo : list call) : list call * option js_error :=
  match todo with
  | [] => (log, None)
  | c :: rest =>
      match ftp_reply log c with
      | None => attempt (log ++ [c]) rest
      | Some e => (log ++ [c], Some e)
      end
  end.

(** A rejection is thrown. *)
Definition thrown (rejected : option js_error) : js_error + unit :=
  match rejected with
  | Some e => inl e
  | None => inr tt
  end.

(** The answer of [upload-zip] for an archive with the given entries, from
    the first rejection of the transfer server and the first unreadable
    entry. *)
Definition zip_answer (entries : list zip_entry)
    (rejected : option js_error) : response :=
  match rejected, (readable (files entries)).2 with
  | Some e, _ => Response 500 (ErrorBody (message e))
  | None, Some e => Response 500 (ErrorBody (message e))
  | None, None => Response 200 (ZipOk (length entries))
  end.

End Deploy.

(** The number of [close] calls in a log. *)
Definition closes (log : list call) : nat := length (List.filter is_close log).

(** A computation that does not close the session. *)
Definition quiet {A} (t : T A) : Prop := ∀ log, closes (t log).1 = closes log.

(** The number of [uploadFrom] calls in a log. *)
Definition uploads (log : list call) : nat := length (List.filter is_upload log).

(** ** Sample inputs *)

Definition sample_env : process_env :=
  {| FTP_HOST := Some "ftp.example.org"; FTP_USER := Some "deploy";
     FTP_PASS := Some "secret" |}.

(** A transfer server that accepts every call. *)
Definition accepting : list call → call → option js_error := λ _ _, None.

(** A transfer server that rejects every upload. *)
Definition rejecting_uploads : list call → call → option js_error :=
  λ _ c, if is_upload c then Some (JsError "552 Storage exceeded" (Some 552)) else None.

(** A parser that finds the given entries. *)
Definition archive_of (entries : list zip_entry) : bytes → js_error + list zip_entry :=
  λ _, inr entries.

(** A parser that finds no archive. *)
Definition not_an_archive : bytes → js_error + list zip_entry :=
  λ _, inl (JsError "Invalid or unsupported zip format. No END header found" None).

Definition two_files : list zip_entry :=
  [ ZipEntry "a/b.txt" false (inr [Byte.x62]);
    ZipEntry "a/c/d.txt" false (inr [Byte.x64]) ].

Definition only_directories : list zip_entry :=
  [ ZipEntry "assets/" true (inr []) ].

Definition zip_request : upload_zip_request :=
  {| zip_file := Some [Byte.x50; Byte.x4b]; zip_basePath := None |}.

(** A stand-in for the two [Buffer] conversions. *)
Definition sample_codec : string → string := λ s, s.

Definition put_request : put_file_body :=
  {| pf_owner := Some "octo"; pf_repo := Some "site";
     pf_path := Some "docs/a.txt"; pf_content := Some "hello";
     pf_message := Some "Update a.txt"; pf_branch := None |}.

Definition get_request : get_file_body :=
  {| gf_owner := Some "octo"; gf_repo := Some "site";
     gf_path := Some "docs/a.txt"; gf_ref := None |}.

(** A store that accepts the write and answers with the written file. *)
Definition store_accepts : put_params → js_error + put_result :=
  λ p, inr (PutResult (Some {[ "path" := default "" (pp_path p);
                               "sha" := "95d09f2b" ]})).

(** Probes: the file is not there, the store is unreachable, the file is
    there. *)
Definition probe_not_found : get_content_params → js_error + content_data :=
  λ _, inl (JsError "Not Found" (Some 404)).

Definition probe_bad_gateway : get_content_params → js_error + content_data :=
  λ _, inl (JsError "Bad Gateway" (Some 502)).

Definition probe_file : get_content_params → js_error + content_data :=
  λ _, inr (Single {[ "sha" := "3b18e512"; "content" := "aGVsbG8=" ]}).

(** ** The shared-secret check and further vocabulary *)

(** [requireKey]: [key] is [req.header("x-actions-key")], [token] is
    [process.env.ACTIONS_AUTH_TOKEN], and [next] is the rest of the route. *)
Definition requireKey (key token : option string) (next : T response) : T response :=
  if negb (JsString.truthy key) || bool_decide (key ≠ token)
  then λ log, (log, Response 401 (ErrorBody "Unauthorized"))
  else next.

(** The non-empty pieces of a path: [s.split("/").filter(Boolean)]. *)
Definition segments (s : string) : list string :=
  JsString.filter_Boolean (JsString.split s).

(** Does the string contain a slash? *)
Fixpoint has_slash (s : string) : bool :=
  match s with
  | EmptyString => false
  | String c rest => bool_decide (c = JsString.slash) || has_slash rest
  end.

(** An absolute path in normal form: it starts with a slash, does not end
    with one, and has no two slashes in a row. *)
Definition clean_absolute (s : string) : bool :=
  JsString.starts_with_slash s
  && negb (JsString.double_slash s)
  && negb (JsString.ends_with_slash s).

Definition is_probe (c : call) : bool :=
  match c with GetContent _ => true | _ => false end.

Definition is_write (c : call) : bool :=
  match c with CreateOrUpdateFileContents _ => true | _ => false end.

(** The remote paths and contents handed to [uploadFrom], in order. *)
Definition uploaded_files (log : list call) : list (string * bytes) :=
  omap (λ c, match c with
             | UploadFrom buffer remotePath => Some (remotePath, buffer)
             | _ => None
             end) log.

(** A configured token. *)
Definition sample_token : option string := Some "s3cret".

(** A transfer server that refuses the connection. *)
Definition refusing : list call → call → option js_error :=
  λ _ c, if is_access c then Some (JsError "connect ECONNREFUSED" None) else None.

(** A store that rejects the write: the version token is stale. *)
Definition store_conflict : put_params → js_error + put_result :=
  λ _, inl (JsError "docs/a.txt does not match 3b18e512" (Some 409)).

(** * Properties *)

(** ** Remote paths *)

Section RemotePaths.

Import JsString.

Lemma strip_leading_slashes_no_slash (s : string) :
  starts_with_slash (strip_leading_slashes s) = false.
Proof.
  induction s as [|c s IH]; simpl; [done|].
  destruct (decide (c = slash)) as [->|Hc]; [done|].
  simpl. by apply bool_decide_eq_false.
Qed.

Lemma double_slash_cons (c : ascii) (s : string) :
  double_slash (String c s) =
    (bool_decide (c = slash) && starts_with_slash s) || double_slash s.
Proof. destruct s; simpl; [by rewrite andb_false_r|done]. Qed.

Lemma ends_with_slash_cons (c : ascii) (s : string) :
  ends_with_slash (String c s) =
    match s with
    | EmptyString => bool_decide (c = slash)
    | _ => ends_with_slash s
    end.
Proof. by destruct s. Qed.

Lemma starts_with_slash_app (a b : string) :
  starts_with_slash (a +:+ b) =
    match a with
    | EmptyString => starts_with_slash b
    | _ => starts_with_slash a
    end.
Proof. by destruct a. Qed.

Lemma double_slash_app (a b : string) :
  double_slash (a +:+ b) =
    double_slash a || (ends_with_slash a && starts_with_slash b) || double_slash b.
Proof.
  induction a as [|c a IH]; [done|].
  change (String c a +:+ b) with (String c (a +:+ b)).
  rewrite !double_slash_cons, IH, starts_with_slash_app, ends_with_slash_cons.
  destruct a as [|c' a']; simpl.
  - by destruct (bool_decide (c = slash)), (starts_with_slash b).
  - destruct (bool_decide (c = slash)), (bool_decide (c' = slash));
      simpl; done.
Qed.

End RemotePaths.

(** C8, as the code has it.  The remote path of an entry is the base path,
    one slash, and the entry name without the slashes it starts with; the
    stripped name never starts with a slash.  The result contains two slashes
    in a row exactly when the base path contains them, or ends with a slash,
    or the stripped entry name contains them.  Entry ["/x/y.txt"] under
    ["/htdocs"] gives ["/htdocs/x/y.txt"]. *)
Theorem remote_path_slashes (basePath entryName : string) :
  remote_path basePath entryName
    = basePath +:+ "/" +:+ JsString.strip_leading_slashes entryName
  ∧ JsString.starts_with_slash (JsString.strip_leading_slashes entryName) = false
  ∧ JsString.double_slash (remote_path basePath entryName)
    = JsString.double_slash basePath
      || JsString.ends_with_slash basePath
      || JsString.double_slash (JsString.strip_leading_slashes entryName)
  ∧ remote_path "/htdocs" "/x/y.txt" = "/htdocs/x/y.txt".
Proof.
  split_and!; [done|apply strip_leading_slashes_no_slash| |done].
  unfold remote_path.
  rewrite !double_slash_app, strip_leading_slashes_no_slash. simpl.
  by rewrite andb_true_r.
Qed.

(** C8, as the spec states it, fails: a base path that ends with a slash
    gives a remote path with two slashes in a row. *)
Lemma trailing_slash_base_doubles_slash :
  remote_path "/htdocs/" "x" = "/htdocs//x"
  ∧ JsString.double_slash (remote_path "/htdocs/" "x") = true.
Proof. split; reflexivity. Qed.

(** ** Directories of a remote path *)

Lemma string_app_assoc (a b c : string) : (a +:+ b) +:+ c = a +:+ b +:+ c.
Proof.
  induction a as [|x a IH]; [done|].
  change (String x ((a +:+ b) +:+ c) = String x (a +:+ b +:+ c)).
  by f_equal.
Qed.

Lemma join_snoc (l : list string) (x : string) :
  l ≠ [] → JsString.join (l ++ [x]) = JsString.join l +:+ "/" +:+ x.
Proof.
  unfold JsString.join.
  induction l as [|y l IH]; [done|]. intros _.
  destruct l as [|z l]; [done|].
  change (String.concat "/" ((y :: z :: l) ++ [x]))
    with (y +:+ "/" +:+ String.concat "/" ((z :: l) ++ [x])).
  rewrite IH by done.
  change (String.concat "/" (y :: z :: l))
    with (y +:+ "/" +:+ String.concat "/" (z :: l)).
  by rewrite !string_app_assoc.
Qed.

(** The directory handed to [ensureDir] is the parent of the remote path
    once the path is cut at its slashes and put together again: the segments
    of the path are the ensured directories and the file name. *)
Lemma ensured_directory_is_parent (remotePath : string) :
  dirs_of remotePath ≠ [] →
  ∃ name : string,
    JsString.filter_Boolean (JsString.split remotePath)
      = dirs_of remotePath ++ [name]
    ∧ "/" +:+ JsString.join (JsString.filter_Boolean (JsString.split remotePath))
      = ("/" +:+ JsString.join (dirs_of remotePath)) +:+ "/" +:+ name.
Proof.
  unfold dirs_of, JsString.slice_0_m1.
  set (parts := JsString.filter_Boolean (JsString.split remotePath)).
  intros Hdirs.
  assert (parts ≠ []) as Hparts by (intros E; by rewrite E in Hdirs).
  destruct (exists_last Hparts) as (ds & name & E).
  rewrite E in *. rewrite length_app in *. simpl in *.
  replace (length ds + 1 - 1) with (length ds) in * by lia.
  rewrite take_app_length in *.
  exists name. split; [done|].
  by rewrite join_snoc.
Qed.

(** ** The log of calls *)

Lemma closes_app (l1 l2 : list call) : closes (l1 ++ l2) = closes l1 + closes l2.
Proof. unfold closes. by rewrite List.filter_app, length_app. Qed.

Lemma uploads_app (l1 l2 : list call) : uploads (l1 ++ l2) = uploads l1 + uploads l2.
Proof. unfold uploads. by rewrite List.filter_app, length_app. Qed.

Lemma uploads_cons (c : call) (l : list call) :
  uploads (c :: l) = (if is_upload c then 1 else 0) + uploads l.
Proof. unfold uploads. simpl. by destruct (is_upload c). Qed.

(** ** The transfer session *)

Section DeployFacts.

Variable env : process_env.
Variable ftp_reply : list call → call → option js_error.
Variable AdmZip : bytes → js_error + list zip_entry.

Local Abbreviation attempt := (attempt ftp_reply).
Local Abbreviation uploadBuffer := (uploadBuffer ftp_reply).
Local Abbreviation for_entries := (for_entries ftp_reply).
Local Abbreviation upload_ftp := (upload_ftp env ftp_reply).
Local Abbreviation upload_zip := (upload_zip env ftp_reply AdmZip).
Local Abbreviation access := (access env ftp_reply).

Lemma attempt_app (a b : list call) (log : list call) :
  attempt log (a ++ b) =
    match attempt log a with
    | (log', Some e) => (log', Some e)
    | (log', None) => attempt log' b
    end.
Proof.
  revert log. induction a as [|c a IH]; intros log; simpl; [done|].
  destruct (ftp_reply log c); [done|]. apply IH.
Qed.

(** The log only grows. *)
Lemma attempt_extends (todo : list call) (log : list call) :
  ∃ done, (attempt log todo).1 = log ++ done ∧ done `prefix_of` todo.
Proof.
  revert log. induction todo as [|c todo IH]; intros log; simpl.
  - exists []. by rewrite app_nil_r.
  - destruct (ftp_reply log c).
    + exists [c]. split; [done|]. by apply prefix_cons, prefix_nil.
    + destruct (IH (log ++ [c])) as (done & -> & Hpre).
      exists (c :: done). split; [by rewrite <-app_assoc|]. by apply prefix_cons.
Qed.

(** When nothing rejects, everything is issued. *)
Lemma attempt_all (todo : list call) (log : list call) :
  (attempt log todo).2 = None → (attempt log todo).1 = log ++ todo.
Proof.
  revert log. induction todo as [|c todo IH]; intros log; simpl.
  - by rewrite app_nil_r.
  - destruct (ftp_reply log c); [done|].
    intros H. rewrite (IH _ H). by rewrite <-app_assoc.
Qed.

(** Nothing is issued after a call that rejected. *)
Lemma attempt_stops (todo : list call) (log pre post : list call)
    (c : call) (e : js_error) :
  (attempt log todo).1 = pre ++ c :: post →
  (length log ≤ length pre)%nat →
  ftp_reply pre c = Some e →
  post = [].
Proof.
  revert log. induction todo as [|c0 todo IH]; intros log; simpl.
  - intros -> Hlen _. rewrite length_app in Hlen. simpl in Hlen. lia.
  - intros Heq Hlen Hrej.
    destruct (decide (length log = length pre)) as [Hsame|Hne].
    + destruct (ftp_reply log c0) as [e0|] eqn:Hr; simpl in Heq.
      * apply app_inj_1 in Heq as [-> Heq]; [|done]. by injection Heq.
      * destruct (attempt_extends todo (log ++ [c0])) as (done & Hd & _).
        rewrite Hd, <-app_assoc in Heq.
        apply app_inj_1 in Heq as [-> Heq]; [|done].
        injection Heq as -> _. congruence.
    + destruct (ftp_reply log c0) as [e0|] eqn:Hr; simpl in Heq.
      * assert (length (log ++ [c0]) = length (pre ++ c :: post)) as Hl
          by by rewrite Heq.
        rewrite !length_app in Hl. simpl in Hl. lia.
      * apply (IH (log ++ [c0])); [done| |done].
        rewrite length_app. simpl. lia.
Qed.

Lemma uploadBuffer_attempt (remotePath : string) (buffer : bytes) (log : list call) :
  uploadBuffer remotePath buffer log =
    let r := attempt log (upload_calls remotePath buffer) in (r.1, thrown r.2).
Proof.
  unfold uploadBuffer, upload_calls, bind, ensureDir, uploadFrom, perform, ret.
  destruct (dirs_of remotePath) as [|d ds]; simpl.
  - by destruct (ftp_reply log _).
  - destruct (ftp_reply log _); [done|]. by destruct (ftp_reply _ _).
Qed.

Lemma files_cons (e : zip_entry) (rest : list zip_entry) :
  files (e :: rest) = if isDirectory e then files rest else e :: files rest.
Proof.
  unfold files. rewrite filter_cons.
  destruct (isDirectory e); by case_decide.
Qed.

Lemma for_entries_attempt (basePath : string) (es : list zip_entry)
    (log : list call) :
  for_entries basePath es log =
    let r := attempt log (plan basePath es) in
    (r.1, match r.2, (readable (files es)).2 with
          | Some e, _ => inl e
          | None, Some e => inl e
          | None, None => inr tt
          end).
Proof.
  revert log. induction es as [|e es IH]; intros log; [done|].
  unfold plan in *. simpl. rewrite files_cons.
  destruct (isDirectory e); [apply IH|].
  simpl. unfold bind, of_result.
  destruct (getData e) as [err|data]; [done|].
  unfold ret. rewrite uploadBuffer_attempt.
  destruct (readable (files es)) as [l failure] eqn:Hr. simpl in *.
  rewrite attempt_app. unfold entry_calls. simpl.
  destruct (attempt log _) as [log' [e'|]]; [done|].
  simpl. apply IH.
Qed.

(** [upload-zip] on a payload that parses. *)
Lemma upload_zip_parsed (req : upload_zip_request) (buffer : bytes)
    (entries : list zip_entry) :
  zip_file req = Some buffer →
  AdmZip buffer = inr entries →
  run (upload_zip req) =
    let r := attempt [] (Access (access_opts env)
                           :: plan (default "/htdocs" (zip_basePath req)) entries) in
    (r.1 ++ [Close], zip_answer entries r.2).
Proof.
  intros Hfile Hzip.
  unfold run, upload_zip, finally, try_catch, close, zip_answer.
  rewrite Hfile. unfold bind, access, perform. simpl.
  destruct (ftp_reply [] _) as [e|]; [done|].
  rewrite Hzip. simpl. rewrite for_entries_attempt. simpl.
  destruct (attempt _ _) as [log' [e'|]]; [done|]. simpl.
  by destruct (readable (files entries)).2.
Qed.

(** [upload-ftp] on a request with a payload. *)
Lemma upload_ftp_attempt (req : upload_ftp_request) (buffer : bytes) :
  ftp_file req = Some buffer →
  run (upload_ftp req) =
    let remotePath := default "/htdocs/index.html" (ftp_remotePath req) in
    let r := attempt [] (Access (access_opts env)
                           :: upload_calls remotePath buffer) in
    (r.1 ++ [Close],
     match r.2 with
     | Some e => Response 500 (ErrorBody (message e))
     | None => Response 200 (FtpOk remotePath)
     end).
Proof.
  intros Hfile.
  unfold run, upload_ftp, finally, try_catch, close.
  rewrite Hfile. unfold bind, access, perform. simpl.
  destruct (ftp_reply [] _) as [e|]; [done|].
  rewrite uploadBuffer_attempt. simpl.
  by destruct (attempt _ _) as [log' [e'|]].
Qed.

(** *** Closing *)

Lemma quiet_ret {A} (x : A) : quiet (ret x).
Proof. done. Qed.

Lemma quiet_throw {A} (e : js_error) : quiet (@throw A e).
Proof. done. Qed.

Lemma quiet_of_result {A} (r : js_error + A) : quiet (of_result r).
Proof. by destruct r. Qed.

Lemma quiet_bind {A B} (m : M A) (k : A → M B) :
  quiet m → (∀ x, quiet (k x)) → quiet (bind m k).
Proof.
  intros Hm Hk log. unfold bind. specialize (Hm log).
  destruct (m log) as [log' [e|x]]; [done|].
  rewrite <-Hm. apply Hk.
Qed.

Lemma quiet_try_catch {A} (m : M A) (h : js_error → A) :
  quiet m → quiet (try_catch m h).
Proof.
  intros Hm log. unfold try_catch. specialize (Hm log).
  by destruct (m log) as [log' [e|x]].
Qed.

Lemma quiet_perform (c : call) : is_close c = false → quiet (perform ftp_reply c).
Proof.
  intros Hc log. unfold perform. simpl.
  rewrite closes_app. unfold closes at 2. simpl. rewrite Hc. simpl. lia.
Qed.

Lemma quiet_uploadBuffer (remotePath : string) (buffer : bytes) :
  quiet (uploadBuffer remotePath buffer).
Proof.
  unfold uploadBuffer. apply quiet_bind.
  - case_bool_decide; [by apply quiet_perform|apply quiet_ret].
  - intros _. by apply quiet_perform.
Qed.

Lemma quiet_for_entries (basePath : string) (es : list zip_entry) :
  quiet (for_entries basePath es).
Proof.
  induction es as [|e es IH]; simpl; [apply quiet_ret|].
  destruct (isDirectory e); [done|].
  apply quiet_bind; [apply quiet_of_result|]. intros data.
  apply quiet_bind; [apply quiet_uploadBuffer|done].
Qed.

(** A block that does not close the session, wrapped in
    [finally { client.close() }], closes it once, as its last call. *)
Lemma finally_close {A} (t : T A) (log : list call) :
  quiet t →
  closes (finally t close log).1 = closes log + 1
  ∧ last (finally t close log).1 = Some Close.
Proof.
  intros Ht. unfold finally, close. specialize (Ht log).
  destruct (t log) as [log' x]. simpl in *.
  rewrite closes_app, Ht, last_snoc. done.
Qed.

End DeployFacts.

Lemma snoc_split (X pre post : list call) (c : call) :
  X ++ [Close] = pre ++ c :: post →
  is_close c = false →
  ∃ post', post = post' ++ [Close] ∧ X = pre ++ c :: post'.
Proof.
  intros Heq Hc.
  destruct (decide (post = [])) as [->|Hne].
  - apply (app_inj_2 _ _ _ [c]) in Heq as [_ Heq]; [|done].
    injection Heq as <-. done.
  - destruct (exists_last Hne) as (post' & z & ->).
    rewrite app_comm_cons, app_assoc in Heq.
    apply app_inj_2 in Heq as [-> Heq]; [|done].
    injection Heq as <-. by exists post'.
Qed.

(** C7.  Both deployment handlers close the transfer session exactly once,
    whatever the request holds and whatever the transfer server and the
    archive parser answer (no payload, connect failure, parse failure,
    failure in the middle of the uploads, success), and the close is the last
    call they make. *)
Theorem session_closed_exactly_once (env : process_env)
    (ftp_reply : list call → call → option js_error)
    (AdmZip : bytes → js_error + list zip_entry) :
  (∀ req : upload_ftp_request,
     closes (run (upload_ftp env ftp_reply req)).1 = 1
     ∧ last (run (upload_ftp env ftp_reply req)).1 = Some Close)
  ∧ (∀ req : upload_zip_request,
       closes (run (upload_zip env ftp_reply AdmZip req)).1 = 1
       ∧ last (run (upload_zip env ftp_reply AdmZip req)).1 = Some Close).
Proof.
  split; intros req; unfold run.
  - apply finally_close. apply quiet_try_catch.
    destruct (ftp_file req); [|apply quiet_ret].
    apply quiet_bind; [by apply quiet_perform|]. intros _.
    apply quiet_bind; [apply quiet_uploadBuffer|]. intros _. apply quiet_ret.
  - apply finally_close. apply quiet_try_catch.
    destruct (zip_file req); [|apply quiet_ret].
    apply quiet_bind; [by apply quiet_perform|]. intros _.
    apply quiet_bind; [apply quiet_of_result|]. intros entries.
    apply quiet_bind; [apply quiet_for_entries|]. intros _. apply quiet_ret.
Qed.

(** C9.  For a payload that parses, [upload-zip] issues the connect, then
    the calls of the file entries in archive order (for each file, the
    directories of its remote path are ensured before its bytes are
    uploaded), one after the other until the first call that rejects or the
    first entry that cannot be read, and then the close; no call other than
    the close follows a call that rejected. *)
Theorem upload_zip_in_archive_order (env : process_env)
    (ftp_reply : list call → call → option js_error)
    (AdmZip : bytes → js_error + list zip_entry)
    (req : upload_zip_request) (buffer : bytes) (entries : list zip_entry) :
  zip_file req = Some buffer →
  AdmZip buffer = inr entries →
  let basePath := default "/htdocs" (zip_basePath req) in
  let r := attempt ftp_reply [] (Access (access_opts env) :: plan basePath entries) in
  run (upload_zip env ftp_reply AdmZip req) = (r.1 ++ [Close], zip_answer entries r.2)
  ∧ plan basePath entries
    = flat_map (entry_calls basePath) (readable (files entries)).1
  ∧ (∀ f : string * bytes,
       let remote := remote_path basePath f.1 in
       entry_calls basePath f =
         (if bool_decide (dirs_of remote = []) then []
          else [EnsureDir ("/" +:+ JsString.join (dirs_of remote))])
         ++ [UploadFrom f.2 remote])
  ∧ (∀ (pre post : list call) (c : call) (e : js_error),
       (run (upload_zip env ftp_reply AdmZip req)).1 = pre ++ c :: post →
       ftp_reply pre c = Some e →
       is_close c = false →
       post = [Close]).
Proof.
  intros Hfile Hzip basePath r.
  pose proof (upload_zip_parsed env ftp_reply AdmZip req buffer entries Hfile Hzip)
    as Hrun.
  split_and!; [done|done| |].
  - intros f remote. unfold entry_calls, upload_calls. fold remote.
    by destruct (dirs_of remote).
  - intros pre post c e Htrace Hrej Hc.
    rewrite Hrun in Htrace. cbv zeta in Htrace. cbn [fst] in Htrace.
    apply snoc_split in Htrace as (post' & -> & Hatt); [|done].
    rewrite (attempt_stops ftp_reply _ [] pre post' c e Hatt); [done| |done].
    simpl. lia.
Qed.

(** The spec's own example: two files, everything accepted. *)
Lemma upload_zip_in_archive_order_witness :
  zip_file zip_request = Some [Byte.x50; Byte.x4b]
  ∧ archive_of two_files [Byte.x50; Byte.x4b] = inr two_files
  ∧ run (upload_zip sample_env accepting (archive_of two_files) zip_request)
    = ([ Access (access_opts sample_env);
         EnsureDir "/htdocs/a"; UploadFrom [Byte.x62] "/htdocs/a/b.txt";
         EnsureDir "/htdocs/a/c"; UploadFrom [Byte.x64] "/htdocs/a/c/d.txt";
         Close ],
       Response 200 (ZipOk 2)).
Proof.
  split; [reflexivity|]. split; [reflexivity|].
  exact (eq_trans
           (proj1 (upload_zip_in_archive_order sample_env accepting
                     (archive_of two_files) zip_request
                     [Byte.x50; Byte.x4b] two_files eq_refl eq_refl))
           eq_refl).
Defined.

(** The same archive against a server that rejects uploads: the first
    upload is the last call before the close. *)
Example upload_zip_aborts_on_first_rejection :
  run (upload_zip sample_env rejecting_uploads (archive_of two_files) zip_request)
  = ([ Access (access_opts sample_env);
       EnsureDir "/htdocs/a"; UploadFrom [Byte.x62] "/htdocs/a/b.txt";
       Close ],
     Response 500 (ErrorBody "552 Storage exceeded")).
Proof. reflexivity. Qed.

(** ** The reported count *)

Section Count.

Variable env : process_env.
Variable ftp_reply : list call → call → option js_error.
Variable AdmZip : bytes → js_error + list zip_entry.

Lemma uploads_entry_calls (basePath : string) (f : string * bytes) :
  uploads (entry_calls basePath f) = 1.
Proof. unfold entry_calls, upload_calls. by destruct (dirs_of _). Qed.

Lemma uploads_flat_map (basePath : string) (fs : list (string * bytes)) :
  uploads (flat_map (entry_calls basePath) fs) = length fs.
Proof.
  induction fs as [|f fs IH]; [done|].
  simpl. by rewrite uploads_app, uploads_entry_calls, IH.
Qed.

Lemma readable_all (es : list zip_entry) :
  (readable es).2 = None → length (readable es).1 = length es.
Proof.
  induction es as [|e es IH]; [done|]. simpl.
  destruct (getData e); [done|].
  destruct (readable es) as [l failure]. simpl in *.
  intros H. by rewrite IH.
Qed.

(** A successful [upload-zip] reports the number of entries of the
    archive, directories included, while it has uploaded one file per
    file entry. *)
Lemma upload_zip_reports_entry_count (req : upload_zip_request)
    (buffer : bytes) (entries : list zip_entry) :
  zip_file req = Some buffer →
  AdmZip buffer = inr entries →
  status (run (upload_zip env ftp_reply AdmZip req)).2 = 200 →
  (run (upload_zip env ftp_reply AdmZip req)).2
    = Response 200 (ZipOk (length entries))
  ∧ uploads (run (upload_zip env ftp_reply AdmZip req)).1
    = length (files entries).
Proof.
  intros Hfile Hzip.
  rewrite (upload_zip_parsed env ftp_reply AdmZip req buffer entries Hfile Hzip).
  cbv zeta. cbn [fst snd]. unfold zip_answer.
  set (todo := Access _ :: _).
  destruct (attempt ftp_reply [] todo).2 eqn:Hrej; [done|].
  destruct (readable (files entries)).2 eqn:Hread; [done|].
  intros _. split; [done|].
  rewrite (attempt_all ftp_reply todo [] Hrej). unfold todo, plan.
  rewrite app_nil_l, uploads_app, uploads_cons, uploads_flat_map, readable_all
    by done.
  unfold uploads. simpl. lia.
Qed.

End Count.

(** C1, at an archive that holds one directory entry and nothing else: the
    handler connects, uploads nothing, closes, and answers
    [{ ok: true, uploaded: 1 }], the number of entries of the archive, where
    the number of files it processed is 0. *)
Theorem upload_zip_counts_directories :
  run (upload_zip sample_env accepting (archive_of only_directories) zip_request)
    = ([Access (access_opts sample_env); Close], Response 200 (ZipOk 1))
  ∧ files only_directories = []
  ∧ uploads (run (upload_zip sample_env accepting
                    (archive_of only_directories) zip_request)).1 = 0.
Proof. split_and!; reflexivity. Qed.

(** C2, as the code has it.  When the payload of an [upload-zip] request
    does not parse, the handler has connected to the transfer server before
    it finds out: the connect and the close are the only calls, and the
    answer has status 500, with the parser's message when the connect went
    through and with the connect's own message when it did not. *)
Theorem upload_zip_unparsable (env : process_env)
    (ftp_reply : list call → call → option js_error)
    (AdmZip : bytes → js_error + list zip_entry)
    (req : upload_zip_request) (buffer : bytes) (err : js_error) :
  zip_file req = Some buffer →
  AdmZip buffer = inl err →
  run (upload_zip env ftp_reply AdmZip req)
  = ([Access (access_opts env); Close],
     Response 500
       (ErrorBody (message (default err (ftp_reply [] (Access (access_opts env))))))).
Proof.
  intros Hfile Hzip.
  unfold run, upload_zip, finally, try_catch, close.
  rewrite Hfile. unfold bind, access, perform. simpl.
  destruct (ftp_reply [] _) as [e|]; [done|].
  by rewrite Hzip.
Qed.

Lemma upload_zip_unparsable_witness :
  zip_file zip_request = Some [Byte.x50; Byte.x4b]
  ∧ not_an_archive [Byte.x50; Byte.x4b]
    = inl (JsError "Invalid or unsupported zip format. No END header found" None)
  ∧ run (upload_zip sample_env accepting not_an_archive zip_request)
    = ([Access (access_opts sample_env); Close],
       Response 500
         (ErrorBody "Invalid or unsupported zip format. No END header found")).
Proof.
  split; [reflexivity|]. split; [reflexivity|].
  exact (upload_zip_unparsable sample_env accepting not_an_archive zip_request
           [Byte.x50; Byte.x4b] _ eq_refl eq_refl).
Defined.

(** C2, as the spec states it, fails: on a payload that is no archive the
    answer is not a 400, and the transfer server has been contacted. *)
Lemma invalid_archive_is_500_after_connect :
  let r := run (upload_zip sample_env accepting not_an_archive zip_request) in
  status r.2 = 500
  ∧ Access (access_opts sample_env) ∈ r.1
  ∧ ¬ (status r.2 = 400 ∧ ∀ c, c ∈ r.1 → is_access c = false).
Proof.
  simpl. split_and!; [done|by left|].
  intros [H _]. discriminate H.
Qed.

(** C10.  Without a [remotePath], [upload-ftp] behaves as with
    ["/htdocs/index.html"]: it connects, ensures ["/htdocs"], uploads the
    payload to ["/htdocs/index.html"] and reports that path.  Without a
    [basePath], [upload-zip] behaves as with ["/htdocs"]: every upload it
    makes goes to ["/htdocs/"] followed by the stripped name of a file entry
    of the archive. *)
Theorem default_remote_paths (env : process_env)
    (ftp_reply : list call → call → option js_error)
    (AdmZip : bytes → js_error + list zip_entry) :
  (∀ file : option bytes,
     upload_ftp env ftp_reply (UploadFtpRequest file None)
     = upload_ftp env ftp_reply (UploadFtpRequest file (Some "/htdocs/index.html")))
  ∧ (∀ buffer : bytes,
       let r := attempt ftp_reply []
                  [ Access (access_opts env); EnsureDir "/htdocs";
                    UploadFrom buffer "/htdocs/index.html" ] in
       run (upload_ftp env ftp_reply (UploadFtpRequest (Some buffer) None))
       = (r.1 ++ [Close],
          match r.2 with
          | Some e => Response 500 (ErrorBody (message e))
          | None => Response 200 (FtpOk "/htdocs/index.html")
          end))
  ∧ (∀ file : option bytes,
       upload_zip env ftp_reply AdmZip (UploadZipRequest file None)
       = upload_zip env ftp_reply AdmZip (UploadZipRequest file (Some "/htdocs")))
  ∧ (∀ (buffer : bytes) (entries : list zip_entry) (c : call),
       AdmZip buffer = inr entries →
       c ∈ (run (upload_zip env ftp_reply AdmZip
                   (UploadZipRequest (Some buffer) None))).1 →
       is_upload c = true →
       ∃ (e : zip_entry) (data : bytes),
         e ∈ entries ∧ isDirectory e = false ∧ getData e = inr data
         ∧ c = UploadFrom data
                 ("/htdocs/" +:+ JsString.strip_leading_slashes (entryName e))).
Proof.
  split_and!; [done| |done|].
  - intros buffer.
    by rewrite (upload_ftp_attempt env ftp_reply
                  (UploadFtpRequest (Some buffer) None) buffer eq_refl).
  - intros buffer entries c Hzip Hin Hup.
    rewrite (upload_zip_parsed env ftp_reply AdmZip
               (UploadZipRequest (Some buffer) None) buffer entries eq_refl Hzip)
      in Hin.
    cbv zeta in Hin. cbn [fst zip_basePath default] in Hin.
    apply elem_of_app in Hin as [Hin|Hin];
      [|apply list_elem_of_singleton in Hin as ->; discriminate Hup].
    destruct (attempt_extends ftp_reply
                (Access (access_opts env) :: plan "/htdocs" entries) [])
      as (done & Hdone & Hpre).
    rewrite Hdone in Hin. simpl in Hin.
    apply (elem_of_prefix _ _ _ Hin) in Hpre as Hin'. clear Hin. rename Hin' into Hin.
    apply elem_of_cons in Hin as [->|Hin]; [discriminate Hup|].
    unfold plan in Hin. apply list_elem_of_In, in_flat_map in Hin
      as (f & Hf & Hc).
    assert (∃ e, e ∈ files entries ∧ entryName e = f.1 ∧ getData e = inr f.2)
      as (e & He & Hname & Hdata).
    { clear -Hf. apply list_elem_of_In in Hf. revert Hf.
      induction (files entries) as [|e es IH]; simpl; [by intros ?%elem_of_nil|].
      destruct (getData e) as [err|data] eqn:Hd; simpl; [by intros ?%elem_of_nil|].
      destruct (readable es) as [l failure]. simpl in *.
      intros [->|Hf]%elem_of_cons.
      - exists e. split; [by left|done].
      - destruct (IH Hf) as (e' & ? & ? & ?). exists e'. split; [by right|done]. }
    apply list_elem_of_filter in He as [Hdir He].
    exists e, f.2. split_and!; [done..|].
    unfold entry_calls, upload_calls in Hc. rewrite <-Hname in Hc.
    destruct (dirs_of _); simpl in Hc.
    + by destruct Hc as [<-|[]].
    + destruct Hc as [<-|[<-|[]]]; [discriminate Hup|done].
Qed.

Lemma default_remote_paths_witness :
  archive_of two_files [Byte.x50; Byte.x4b] = inr two_files
  ∧ ∃ (e : zip_entry) (data : bytes),
      e ∈ two_files ∧ isDirectory e = false ∧ getData e = inr data
      ∧ UploadFrom [Byte.x64] "/htdocs/a/c/d.txt"
        = UploadFrom data
            ("/htdocs/" +:+ JsString.strip_leading_slashes (entryName e)).
Proof.
  split; [reflexivity|].
  apply (proj2 (proj2 (proj2 (default_remote_paths sample_env accepting
                                (archive_of two_files))))
           [Byte.x50; Byte.x4b] two_files
           (UploadFrom [Byte.x64] "/htdocs/a/c/d.txt") eq_refl);
    [|reflexivity].
  vm_compute. do 4 right. left.
Defined.

(** ** The content publisher *)

Section GitHubFacts.

Variable octokit_getContent : get_content_params → js_error + content_data.
Variable octokit_createOrUpdateFileContents : put_params → js_error + put_result.
Variable base64_to_utf8 : string → string.
Variable utf8_to_base64 : string → string.

(** What the probe leaves in [sha], case by case. *)
Lemma probe_sha_run (b : put_file_body) (log : list call) :
  probe_sha octokit_getContent b log =
    (log ++ [GetContent (probe_params b)],
     observed_sha (octokit_getContent (probe_params b))).
Proof.
  unfold probe_sha, try_catch, bind, getContent, observed_sha.
  destruct (octokit_getContent _) as [e|[items|fields]]; [done..|].
  simpl. rewrite andb_false_r.
  case_bool_decide as H; [done|].
  apply eq_None_not_Some in H. by rewrite H.
Qed.

(** [put-file] once the required fields are there. *)
Lemma put_file_run (b : put_file_body) :
  JsString.truthy (pf_owner b) = true →
  JsString.truthy (pf_repo b) = true →
  JsString.truthy (pf_path b) = true →
  JsString.truthy (pf_content b) = true →
  JsString.truthy (pf_message b) = true →
  let sub :=
    {| pp_owner := pf_owner b; pp_repo := pf_repo b; pp_path := pf_path b;
       pp_message := pf_message b;
       pp_content := utf8_to_base64 (default "" (pf_content b));
       pp_sha := observed_sha (octokit_getContent (probe_params b));
       pp_branch := pf_branch b |} in
  run (put_file octokit_getContent octokit_createOrUpdateFileContents
         utf8_to_base64 b)
  = ([GetContent (probe_params b); CreateOrUpdateFileContents sub],
     match octokit_createOrUpdateFileContents sub with
     | inl e => Response 500 (ErrorBody (message e))
     | inr result =>
         Response 200
           (PutOk (pf_path b)
              (JsString.or_else (pf_branch b) (content_path result)))
     end).
Proof.
  intros Ho Hr Hp Hc Hm sub.
  unfold run, put_file, try_catch. rewrite Ho, Hr, Hp, Hc, Hm. simpl.
  unfold bind, lift, createOrUpdateFileContents.
  subst sub. rewrite !probe_sha_run. simpl.
  by destruct (octokit_createOrUpdateFileContents _).
Qed.

(** [get-file] once the required fields are there. *)
Lemma get_file_run (b : get_file_body) :
  JsString.truthy (gf_owner b) = true →
  JsString.truthy (gf_repo b) = true →
  JsString.truthy (gf_path b) = true →
  let p := {| gc_owner := gf_owner b; gc_repo := gf_repo b;
              gc_path := gf_path b; gc_ref := gf_ref b |} in
  run (get_file octokit_getContent base64_to_utf8 b)
  = ([GetContent p],
     match octokit_getContent p with
     | inl e => Response 500 (ErrorBody (message e))
     | inr (Listing _) => Response 400 (ErrorBody "Not a file")
     | inr (Single fields) =>
         match fields !! "content" with
         | Some content => Response 200 (TextBody (base64_to_utf8 content))
         | None => Response 400 (ErrorBody "Not a file")
         end
     end).
Proof.
  intros Ho Hr Hp p.
  unfold run, get_file, try_catch. rewrite Ho, Hr, Hp. simpl.
  unfold bind, getContent. fold p.
  destruct (octokit_getContent p) as [e|[items|fields]]; [done..|].
  simpl. case_bool_decide as H; simpl.
  - by destruct H as [content ->].
  - apply eq_None_not_Some in H. by rewrite H.
Qed.

End GitHubFacts.

(** The probe of [put-file] treats every failure of [getContent] alike,
    whatever its status. *)
Lemma put_file_ignores_probe_error
    (octokit_createOrUpdateFileContents : put_params → js_error + put_result)
    (utf8_to_base64 : string → string) (b : put_file_body) (e e' : js_error) :
  run (put_file (λ _, inl e) octokit_createOrUpdateFileContents utf8_to_base64 b)
  = run (put_file (λ _, inl e') octokit_createOrUpdateFileContents utf8_to_base64 b).
Proof. reflexivity. Qed.

(** C3, at a write that names no branch: the [branch] field of the answer
    holds the path of the written file, ["docs/a.txt"], not a branch. *)
Theorem put_file_reports_path_as_branch :
  pf_branch put_request = None
  ∧ run (put_file probe_not_found store_accepts sample_codec put_request)
    = ([ GetContent (probe_params put_request);
         CreateOrUpdateFileContents
           {| pp_owner := Some "octo"; pp_repo := Some "site";
              pp_path := Some "docs/a.txt"; pp_message := Some "Update a.txt";
              pp_content := "hello"; pp_sha := None; pp_branch := None |} ],
       Response 200 (PutOk (Some "docs/a.txt") (Some "docs/a.txt"))).
Proof. split; reflexivity. Qed.

(** C4, at a probe that fails with a 502: the failure is swallowed like a
    404, the write is submitted without a version token, and the caller gets
    a 200. *)
Theorem put_file_swallows_probe_failure :
  probe_bad_gateway (probe_params put_request)
    = inl (JsError "Bad Gateway" (Some 502))
  ∧ is_not_found (JsError "Bad Gateway" (Some 502)) = false
  ∧ run (put_file probe_bad_gateway store_accepts sample_codec put_request)
    = ([ GetContent (probe_params put_request);
         CreateOrUpdateFileContents
           {| pp_owner := Some "octo"; pp_repo := Some "site";
              pp_path := Some "docs/a.txt"; pp_message := Some "Update a.txt";
              pp_content := "hello"; pp_sha := None; pp_branch := None |} ],
       Response 200 (PutOk (Some "docs/a.txt") (Some "docs/a.txt"))).
Proof. split_and!; reflexivity. Qed.

(** C5, as the code has it.  [get-file] makes one [getContent] call.  A
    directory, or any answer without a [content] field, gives 400 with
    ["Not a file"]; every error of the store, the 404 of a missing path
    included, gives 500 with the store's message. *)
Theorem get_file_outcomes
    (octokit_getContent : get_content_params → js_error + content_data)
    (base64_to_utf8 : string → string) (b : get_file_body) :
  JsString.truthy (gf_owner b) = true →
  JsString.truthy (gf_repo b) = true →
  JsString.truthy (gf_path b) = true →
  let p := {| gc_owner := gf_owner b; gc_repo := gf_repo b;
              gc_path := gf_path b; gc_ref := gf_ref b |} in
  let r := run (get_file octokit_getContent base64_to_utf8 b) in
  r.1 = [GetContent p]
  ∧ (∀ e, octokit_getContent p = inl e →
          r.2 = Response 500 (ErrorBody (message e)))
  ∧ (∀ items, octokit_getContent p = inr (Listing items) →
              r.2 = Response 400 (ErrorBody "Not a file"))
  ∧ (∀ fields, octokit_getContent p = inr (Single fields) →
               r.2 = match fields !! "content" with
                     | Some content =>
                         Response 200 (TextBody (base64_to_utf8 content))
                     | None => Response 400 (ErrorBody "Not a file")
                     end).
Proof.
  intros Ho Hr Hp p r. subst r.
  rewrite (get_file_run octokit_getContent base64_to_utf8 b Ho Hr Hp).
  fold p. simpl. split_and!; [done|intros ? ->..]; done.
Qed.

Lemma get_file_outcomes_witness :
  JsString.truthy (gf_owner get_request) = true
  ∧ JsString.truthy (gf_repo get_request) = true
  ∧ JsString.truthy (gf_path get_request) = true
  ∧ (run (get_file probe_not_found sample_codec get_request)).2
    = Response 500 (ErrorBody "Not Found").
Proof.
  split_and!; [reflexivity..|].
  exact (proj1 (proj2 (get_file_outcomes probe_not_found sample_codec get_request
                         eq_refl eq_refl eq_refl))
           (JsError "Not Found" (Some 404)) eq_refl).
Defined.

(** C5, as the spec states it, fails: a missing path is answered with the
    status of every other store error, and a 404 and another error with the
    same message are answered alike. *)
Lemma not_found_answered_like_other_errors :
  is_not_found (JsError "Not Found" (Some 404)) = true
  ∧ is_not_found (JsError "Bad Gateway" (Some 502)) = false
  ∧ status (run (get_file probe_not_found sample_codec get_request)).2
    = status (run (get_file probe_bad_gateway sample_codec get_request)).2
  ∧ is_not_found (JsError "Not Found" (Some 403)) = false
  ∧ run (get_file (λ _, inl (JsError "Not Found" (Some 404)))
           sample_codec get_request)
    = run (get_file (λ _, inl (JsError "Not Found" (Some 403)))
             sample_codec get_request).
Proof. split_and!; reflexivity. Qed.

(** C6.  A write with its required fields makes two calls: the probe,
    which asks the store about the owner, repository and path of the request
    at the requested branch, and the submission, which goes to that same
    owner, repository, path and branch.  The submission carries a version
    token exactly when the probe resolved to a single file with a [sha], and
    the token is that [sha]; after a probe that failed (the file is not
    there) or that resolved to a listing, no token is sent. *)
Theorem put_file_version_token
    (octokit_getContent : get_content_params → js_error + content_data)
    (octokit_createOrUpdateFileContents : put_params → js_error + put_result)
    (utf8_to_base64 : string → string) (b : put_file_body) :
  JsString.truthy (pf_owner b) = true →
  JsString.truthy (pf_repo b) = true →
  JsString.truthy (pf_path b) = true →
  JsString.truthy (pf_content b) = true →
  JsString.truthy (pf_message b) = true →
  let target := {| gc_owner := pf_owner b; gc_repo := pf_repo b;
                   gc_path := pf_path b; gc_ref := pf_branch b |} in
  let probe := octokit_getContent target in
  ∃ sub : put_params,
    (run (put_file octokit_getContent octokit_createOrUpdateFileContents
            utf8_to_base64 b)).1
    = [GetContent target; CreateOrUpdateFileContents sub]
    ∧ pp_owner sub = pf_owner b
    ∧ pp_repo sub = pf_repo b
    ∧ pp_path sub = pf_path b
    ∧ pp_branch sub = pf_branch b
    ∧ pp_sha sub = observed_sha probe
    ∧ (∀ s, pp_sha sub = Some s ↔
            ∃ fields, probe = inr (Single fields) ∧ fields !! "sha" = Some s)
    ∧ (∀ e, probe = inl e → pp_sha sub = None)
    ∧ (∀ items, probe = inr (Listing items) → pp_sha sub = None).
Proof.
  intros Ho Hr Hp Hc Hm target probe.
  eexists. rewrite (put_file_run octokit_getContent
                      octokit_createOrUpdateFileContents utf8_to_base64
                      b Ho Hr Hp Hc Hm).
  unfold probe_params. fold target. fold probe.
  cbv zeta. cbn [fst pp_owner pp_repo pp_path pp_branch pp_sha].
  split_and!; [done..| | |].
  - intros s. split.
    + destruct probe as [e|[items|fields]]; simpl; [done..|]. by exists fields.
    + by intros (fields & -> & ?).
  - by intros e ->.
  - by intros items ->.
Qed.

Lemma put_file_version_token_witness :
  JsString.truthy (pf_owner put_request) = true
  ∧ JsString.truthy (pf_repo put_request) = true
  ∧ JsString.truthy (pf_path put_request) = true
  ∧ JsString.truthy (pf_content put_request) = true
  ∧ JsString.truthy (pf_message put_request) = true
  ∧ ∃ sub : put_params,
      (run (put_file probe_file store_accepts sample_codec put_request)).1
      = [ GetContent {| gc_owner := Some "octo"; gc_repo := Some "site";
                        gc_path := Some "docs/a.txt"; gc_ref := None |};
          CreateOrUpdateFileContents sub ]
      ∧ pp_owner sub = Some "octo"
      ∧ pp_repo sub = Some "site"
      ∧ pp_path sub = Some "docs/a.txt"
      ∧ pp_branch sub = None
      ∧ pp_sha sub = Some "3b18e512".
Proof.
  split_and!; [reflexivity..|].
  destruct (put_file_version_token probe_file store_accepts sample_codec
              put_request eq_refl eq_refl eq_refl eq_refl eq_refl)
    as (sub & Htrace & Howner & Hrepo & Hpath & Hbranch & Hsha & _).
  exists sub.
  split; [exact Htrace|]. split; [exact Howner|]. split; [exact Hrepo|].
  split; [exact Hpath|]. split; [exact Hbranch|exact Hsha].
Defined.

(** * Further properties *)

(** ** The shared-secret check *)

(** [requireKey] lets a request through exactly when the header holds a
    non-empty key equal to the configured token; otherwise the answer is
    401 and the rest of the route does not run, so no call is made.  With
    the token unset, or set to the empty string, nothing gets through. *)
Theorem requireKey_gate (key token : option string) (next : T response) :
  ((∃ s, s ≠ "" ∧ key = Some s ∧ token = Some s) →
     requireKey key token next = next)
  ∧ (¬ (∃ s, s ≠ "" ∧ key = Some s ∧ token = Some s) →
       ∀ log, requireKey key token next log
              = (log, Response 401 (ErrorBody "Unauthorized")))
  ∧ (∀ log, requireKey key None next log
            = (log, Response 401 (ErrorBody "Unauthorized")))
  ∧ (∀ log, requireKey key (Some "") next log
            = (log, Response 401 (ErrorBody "Unauthorized"))).
Proof.
  assert (∀ token', ¬ (∃ s, s ≠ "" ∧ key = Some s ∧ token' = Some s) →
          ∀ log, requireKey key token' next log
                 = (log, Response 401 (ErrorBody "Unauthorized"))) as Hrej.
  { intros token' Hno log. unfold requireKey.
    destruct key as [s|]; simpl; [|done].
    case_bool_decide as Hs; simpl; [|done].
    case_bool_decide as Ht; [done|].
    exfalso. apply Hno. exists s. split_and!; [done..|].
    destruct (decide (Some s = token')) as [<-|]; done. }
  split_and!.
  - intros (s & Hs & -> & ->). unfold requireKey. simpl.
    rewrite bool_decide_eq_true_2 by done. simpl.
    by rewrite bool_decide_eq_false_2 by (intros H; by apply H).
  - apply Hrej.
  - apply Hrej. by intros (s & _ & _ & [=]).
  - apply Hrej. intros (s & Hs & _ & [= <-]). done.
Qed.

Lemma requireKey_gate_witness :
  (∃ s, s ≠ "" ∧ sample_token = Some s ∧ sample_token = Some s)
  ∧ requireKey sample_token sample_token
      (upload_zip sample_env accepting (archive_of two_files) zip_request)
    = upload_zip sample_env accepting (archive_of two_files) zip_request
  ∧ ¬ (∃ s, s ≠ "" ∧ Some "guess" = Some s ∧ sample_token = Some s)
  ∧ run (requireKey (Some "guess") sample_token
           (upload_zip sample_env accepting (archive_of two_files) zip_request))
    = ([], Response 401 (ErrorBody "Unauthorized")).
Proof.
  assert (∃ s, s ≠ "" ∧ sample_token = Some s ∧ sample_token = Some s) as Hok
    by (exists "s3cret"; done).
  assert (¬ (∃ s, s ≠ "" ∧ Some "guess" = Some s ∧ sample_token = Some s))
    as Hno by (intros (s & _ & [= <-] & [=])).
  split_and!; [done| |done|].
  - exact (proj1 (requireKey_gate sample_token sample_token _) Hok).
  - exact (proj1 (proj2 (requireKey_gate (Some "guess") sample_token _)) Hno []).
Defined.

(** ** Cutting a path at its slashes *)

Lemma split_not_nil (s : string) : JsString.split s ≠ [].
Proof.
  induction s as [|c s IH]; simpl; [done|].
  case_decide; [done|]. by destruct (JsString.split s).
Qed.

(** [s.split("/").join("/") === s]. *)
Lemma join_split (s : string) : JsString.join (JsString.split s) = s.
Proof.
  unfold JsString.join.
  induction s as [|c s IH]; simpl; [done|].
  case_decide as Hc.
  - subst c. pose proof (split_not_nil s) as Hne.
    destruct (JsString.split s) as [|w ws]; [done|].
    change (String.concat "/" ("" :: w :: ws))
      with ("/" +:+ String.concat "/" (w :: ws)).
    by rewrite IH.
  - pose proof (split_not_nil s) as Hne.
    destruct (JsString.split s) as [|w ws]; [done|].
    rewrite <-IH. by destruct ws.
Qed.

(** [(a + "/" + b).split("/")] is [a.split("/")] followed by
    [b.split("/")]. *)
Lemma split_app_slash (a b : string) :
  JsString.split (a +:+ "/" +:+ b) = JsString.split a ++ JsString.split b.
Proof.
  induction a as [|c a IH]; simpl; [done|].
  change (JsString.split (a +:+ String "/" b))
    with (JsString.split (a +:+ "/" +:+ b)).
  rewrite IH. case_decide; [done|].
  pose proof (split_not_nil a) as Hne.
  by destruct (JsString.split a).
Qed.

Lemma split_no_slash (s : string) :
  Forall (λ w, has_slash w = false) (JsString.split s).
Proof.
  induction s as [|c s IH]; simpl; [by constructor|].
  case_decide as Hc; [by constructor|].
  destruct (JsString.split s) as [|w ws].
  - constructor; [|done]. simpl. by rewrite bool_decide_eq_false_2.
  - apply Forall_cons in IH as [Hw Hws]. constructor; [|done].
    simpl. by rewrite bool_decide_eq_false_2.
Qed.

Lemma segments_no_slash (s : string) :
  Forall (λ w, w ≠ "" ∧ has_slash w = false) (segments s).
Proof.
  unfold segments, JsString.filter_Boolean.
  apply Forall_forall. intros w [Hne Hin]%list_elem_of_filter.
  split; [done|].
  by apply (proj1 (Forall_forall _ _) (split_no_slash s)).
Qed.

Lemma segments_strip (name : string) :
  segments (JsString.strip_leading_slashes name) = segments name.
Proof.
  unfold segments, JsString.filter_Boolean.
  induction name as [|c name IH]; [done|]. simpl.
  destruct (decide (c = JsString.slash)) as [->|Hc]; simpl.
  - rewrite IH.
    by rewrite filter_cons_False by (intros H; by apply H).
  - by rewrite decide_False.
Qed.

Lemma no_slash_start (w : string) :
  has_slash w = false → JsString.starts_with_slash w = false.
Proof. destruct w; simpl; [done|]. by intros [? _]%orb_false_elim. Qed.

Lemma no_slash_double (w : string) :
  has_slash w = false → JsString.double_slash w = false.
Proof.
  induction w as [|c w IH]; [done|]. simpl has_slash.
  intros [Hc Hw]%orb_false_elim.
  rewrite double_slash_cons, Hc. simpl. by apply IH.
Qed.

Lemma no_slash_end (w : string) :
  has_slash w = false → JsString.ends_with_slash w = false.
Proof.
  induction w as [|c w IH]; [done|]. simpl has_slash.
  intros [Hc Hw]%orb_false_elim.
  rewrite ends_with_slash_cons. destruct w; [done|]. by apply IH.
Qed.

Lemma ends_with_slash_app (a b : string) :
  b ≠ "" → JsString.ends_with_slash (a +:+ b) = JsString.ends_with_slash b.
Proof.
  intros Hb. induction a as [|c a IH]; [done|].
  change (String c a +:+ b) with (String c (a +:+ b)).
  rewrite ends_with_slash_cons, IH.
  destruct (a +:+ b) eqn:E; [|done].
  destruct a; simpl in E; [done|discriminate].
Qed.

(** Putting slash-free, non-empty pieces together with slashes gives a
    relative path in normal form. *)
Lemma join_normal (l : list string) :
  l ≠ [] →
  Forall (λ w, w ≠ "" ∧ has_slash w = false) l →
  JsString.join l ≠ ""
  ∧ JsString.starts_with_slash (JsString.join l) = false
  ∧ JsString.double_slash (JsString.join l) = false
  ∧ JsString.ends_with_slash (JsString.join l) = false.
Proof.
  unfold JsString.join.
  induction l as [|w l IH]; [done|]. intros _ [[Hne Hw] Hl]%Forall_cons.
  destruct l as [|w' l].
  - simpl. split_and!; [done|by apply no_slash_start|by apply no_slash_double
                        |by apply no_slash_end].
  - destruct (IH ltac:(done) Hl) as (Hj & Hs & Hd & He).
    change (String.concat "/" (w :: w' :: l))
      with (w +:+ "/" +:+ String.concat "/" (w' :: l)).
    set (j := String.concat "/" (w' :: l)) in *.
    split_and!.
    + destruct w; [done|discriminate].
    + rewrite starts_with_slash_app. destruct w; [done|by apply no_slash_start].
    + rewrite double_slash_app, no_slash_double, no_slash_end by done.
      change ("/" +:+ j) with (String "/" j).
      by rewrite double_slash_cons, Hs, Hd.
    + change ("/" +:+ j) with (String "/" j).
      rewrite ends_with_slash_app by done.
      rewrite ends_with_slash_cons. by destruct j.
Qed.

Lemma dirs_join_clean (remotePath : string) (d : string) (ds : list string) :
  dirs_of remotePath = d :: ds →
  clean_absolute ("/" +:+ JsString.join (d :: ds)) = true.
Proof.
  intros Hdirs.
  assert (Forall (λ w, w ≠ "" ∧ has_slash w = false) (d :: ds)) as Hall.
  { rewrite <-Hdirs. unfold dirs_of, JsString.slice_0_m1.
    apply Forall_take, (segments_no_slash remotePath). }
  destruct (join_normal (d :: ds) ltac:(done) Hall) as (Hj & Hs & Hd & He).
  unfold clean_absolute.
  change ("/" +:+ JsString.join (d :: ds))
    with (String "/" (JsString.join (d :: ds))).
  rewrite double_slash_cons, ends_with_slash_cons, Hs, Hd.
  simpl. destruct (JsString.join (d :: ds)); [done|]. by rewrite He.
Qed.

Lemma upload_calls_ensure_clean (remotePath : string) (buffer : bytes) (dir : string) :
  EnsureDir dir ∈ upload_calls remotePath buffer →
  dir = "/" +:+ JsString.join (dirs_of remotePath)
  ∧ dirs_of remotePath ≠ []
  ∧ clean_absolute dir = true.
Proof.
  unfold upload_calls.
  destruct (dirs_of remotePath) as [|d ds] eqn:Hdirs.
  { intros [[=]|[]%elem_of_nil]%elem_of_cons. }
  intros [[= ->]|[[=]|[]%elem_of_nil]%elem_of_cons]%elem_of_cons.
  split_and!; [done..|]. by apply (dirs_join_clean remotePath).
Qed.

(** The pieces of a path in normal form: none of them is empty, except the
    one in front of the leading slash. *)
Lemma split_clean (s : string) :
  JsString.double_slash s = false →
  JsString.ends_with_slash s = false →
  (JsString.starts_with_slash s = false → s ≠ "" →
     Forall (λ w, w ≠ "") (JsString.split s))
  ∧ (JsString.starts_with_slash s = true →
       ∃ ws, JsString.split s = "" :: ws ∧ ws ≠ [] ∧ Forall (λ w, w ≠ "") ws).
Proof.
  induction s as [|c s IH]; [done|].
  rewrite double_slash_cons, ends_with_slash_cons.
  intros [Hcs Hd]%orb_false_elim He. simpl JsString.starts_with_slash.
  simpl JsString.split.
  destruct (decide (c = JsString.slash)) as [->|Hc].
  - split; [done|]. intros _. simpl in Hcs.
    assert (s ≠ "") as Hs by (by destruct s).
    assert (JsString.ends_with_slash s = false) as He' by (by destruct s).
    exists (JsString.split s). split_and!; [done|apply split_not_nil|].
    by apply (IH Hd He').
  - split; [|by rewrite bool_decide_eq_false_2]. intros _ _.
    destruct s as [|c' s']; [by repeat constructor|].
    destruct (JsString.starts_with_slash (String c' s')) eqn:Hst.
    + destruct (proj2 (IH Hd He) eq_refl) as (ws & -> & _ & Hws).
      by constructor.
    + pose proof (proj1 (IH Hd He) eq_refl ltac:(done)) as Hall.
      destruct (JsString.split (String c' s')) as [|w ws];
        [by repeat constructor|].
      apply Forall_cons in Hall as [_ Hws]. by constructor.
Qed.

Lemma filter_Boolean_id (ws : list string) :
  Forall (λ w, w ≠ "") ws → JsString.filter_Boolean ws = ws.
Proof.
  unfold JsString.filter_Boolean.
  induction 1 as [|w ws Hw _ IH]; [done|].
  by rewrite filter_cons_True, IH.
Qed.

Lemma accepting_all (todo : list call) (log : list call) :
  attempt accepting log todo = (log ++ todo, None).
Proof.
  revert log. induction todo as [|c todo IH]; intros log; simpl.
  - by rewrite app_nil_r.
  - by rewrite IH, <-app_assoc.
Qed.

(** On a remote path in normal form, [uploadBuffer] ensures exactly the
    parent directory of the file: the path is the ensured directory, a
    slash, and a file name without slashes.  A file directly under the root
    needs no directory.  (The calls are those made when the server accepts
    them all.) *)
Theorem uploadBuffer_clean_path (remotePath : string) (buffer : bytes) :
  clean_absolute remotePath = true →
  ∃ name : string,
    name ≠ "" ∧ has_slash name = false
    ∧ ((remotePath = "/" +:+ name
        ∧ uploadBuffer accepting remotePath buffer []
          = ([UploadFrom buffer remotePath], inr tt))
       ∨ (∃ dir : string,
            remotePath = dir +:+ "/" +:+ name
            ∧ clean_absolute dir = true
            ∧ uploadBuffer accepting remotePath buffer []
              = ([EnsureDir dir; UploadFrom buffer remotePath], inr tt))).
Proof.
  unfold clean_absolute.
  intros [[Hs Hd%negb_true_iff]%andb_prop He%negb_true_iff]%andb_prop.
  destruct (proj2 (split_clean remotePath Hd He) Hs) as (ws & Hsplit & Hne & Hall).
  assert (segments remotePath = ws) as Hseg.
  { unfold segments. rewrite Hsplit. unfold JsString.filter_Boolean.
    rewrite filter_cons_False by (intros H; by apply H).
    by apply filter_Boolean_id. }
  assert (remotePath = "/" +:+ JsString.join ws) as Hpath.
  { rewrite <-(join_split remotePath) at 1. rewrite Hsplit.
    unfold JsString.join. by destruct ws. }
  destruct (exists_last Hne) as (ds & name & ->).
  pose proof (segments_no_slash remotePath) as Hnames.
  rewrite Hseg in Hnames.
  apply Forall_app in Hnames as [_ [[Hname Hslash] _]%Forall_cons].
  exists name. split_and!; [done..|].
  assert (dirs_of remotePath = ds) as Hdirs.
  { unfold dirs_of. fold (segments remotePath). rewrite Hseg.
    unfold JsString.slice_0_m1. rewrite length_app. simpl.
    replace (length ds + 1 - 1) with (length ds) by lia.
    by rewrite take_app_length. }
  rewrite uploadBuffer_attempt, accepting_all. unfold upload_calls.
  rewrite Hdirs. destruct ds as [|d ds].
  - left. by split.
  - right. exists ("/" +:+ JsString.join (d :: ds)).
    split_and!; [|by apply (dirs_join_clean remotePath)|done].
    rewrite Hpath at 1. by rewrite join_snoc.
Qed.

Lemma uploadBuffer_clean_path_witness :
  clean_absolute "/htdocs/a/b.txt" = true
  ∧ ∃ name : string,
      name ≠ "" ∧ has_slash name = false
      ∧ (("/htdocs/a/b.txt" = "/" +:+ name
          ∧ uploadBuffer accepting "/htdocs/a/b.txt" [Byte.x62] []
            = ([UploadFrom [Byte.x62] "/htdocs/a/b.txt"], inr tt))
         ∨ (∃ dir : string,
              "/htdocs/a/b.txt" = dir +:+ "/" +:+ name
              ∧ clean_absolute dir = true
              ∧ uploadBuffer accepting "/htdocs/a/b.txt" [Byte.x62] []
                = ([EnsureDir dir; UploadFrom [Byte.x62] "/htdocs/a/b.txt"],
                   inr tt))).
Proof.
  split; [reflexivity|].
  exact (uploadBuffer_clean_path "/htdocs/a/b.txt" [Byte.x62] eq_refl).
Defined.

(** ** The remote path of an archive entry *)

(** The pieces of an entry's remote path are the pieces of the base path
    followed by the pieces of the entry name.  So a slash at the end of the
    base path, or slashes in front of the entry name, change nothing about
    the directories that are ensured. *)
Theorem remote_path_segments (basePath entryName : string) :
  segments (remote_path basePath entryName)
    = segments basePath ++ segments entryName
  ∧ dirs_of (remote_path (basePath +:+ "/") entryName)
    = dirs_of (remote_path basePath entryName)
  ∧ dirs_of (remote_path basePath ("/" +:+ entryName))
    = dirs_of (remote_path basePath entryName).
Proof.
  assert (∀ b n, segments (remote_path b n) = segments b ++ segments n) as Hseg.
  { intros b n. unfold remote_path.
    rewrite <-(segments_strip n). unfold segments at 1.
    rewrite split_app_slash. unfold JsString.filter_Boolean.
    by rewrite filter_app. }
  assert (segments (basePath +:+ "/") = segments basePath) as Hbase.
  { change (basePath +:+ "/") with (basePath +:+ "/" +:+ "").
    unfold segments. rewrite split_app_slash.
    unfold JsString.filter_Boolean. rewrite filter_app. simpl.
    rewrite filter_cons_False by (intros H; by apply H).
    by rewrite filter_nil, app_nil_r. }
  split_and!; [done| |].
  - unfold dirs_of. fold (segments (remote_path (basePath +:+ "/") entryName)).
    fold (segments (remote_path basePath entryName)).
    by rewrite !Hseg, Hbase.
  - unfold dirs_of. fold (segments (remote_path basePath ("/" +:+ entryName))).
    fold (segments (remote_path basePath entryName)).
    rewrite !Hseg. reflexivity.
Qed.

(** Two entries are sent to the same remote path exactly when their names
    agree once the leading slashes are dropped: ["/x"] and ["x"] land on one
    file, and names without a leading slash never collide. *)
Theorem remote_path_collision (basePath name1 name2 : string) :
  (remote_path basePath name1 = remote_path basePath name2
   ↔ JsString.strip_leading_slashes name1 = JsString.strip_leading_slashes name2)
  ∧ remote_path basePath ("/" +:+ name1) = remote_path basePath name1
  ∧ (JsString.starts_with_slash name1 = false →
     JsString.starts_with_slash name2 = false →
     remote_path basePath name1 = remote_path basePath name2 → name1 = name2).
Proof.
  assert (∀ n, JsString.starts_with_slash n = false →
               JsString.strip_leading_slashes n = n) as Hid.
  { intros [|c n]; simpl; [done|]. intros Hc%bool_decide_eq_false.
    by rewrite decide_False. }
  assert (remote_path basePath name1 = remote_path basePath name2
          ↔ JsString.strip_leading_slashes name1
            = JsString.strip_leading_slashes name2) as Hiff.
  { unfold remote_path. split; [|by intros ->].
    intros H. apply String.app_inj in H. by injection H. }
  split_and!; [done|done|].
  intros H1 H2 H%Hiff. by rewrite !Hid in H.
Qed.

Lemma remote_path_collision_witness :
  JsString.starts_with_slash "a/b.txt" = false
  ∧ JsString.starts_with_slash "a/b.txt" = false
  ∧ remote_path "/htdocs" "a/b.txt" = remote_path "/htdocs" "a/b.txt"
  ∧ "a/b.txt" = "a/b.txt".
Proof.
  split_and!; [reflexivity..|].
  exact (proj2 (proj2 (remote_path_collision "/htdocs" "a/b.txt" "a/b.txt"))
           eq_refl eq_refl eq_refl).
Defined.

(** ** What the deployment handlers send *)

Section DeployLogs.

Variable env : process_env.
Variable ftp_reply : list call → call → option js_error.
Variable AdmZip : bytes → js_error + list zip_entry.

Lemma attempt_elements (todo log : list call) (c : call) :
  c ∈ (attempt ftp_reply log todo).1 → c ∈ log ∨ c ∈ todo.
Proof.
  destruct (attempt_extends ftp_reply todo log) as (done & -> & Hpre).
  intros [?|Hin]%elem_of_app; [by left|right].
  by apply (elem_of_prefix _ _ _ Hin).
Qed.

Lemma readable_elements (es : list zip_entry) (f : string * bytes) :
  f ∈ (readable es).1 →
  ∃ e, e ∈ es ∧ entryName e = f.1 ∧ getData e = inr f.2.
Proof.
  induction es as [|e es IH]; simpl; [by intros ?%elem_of_nil|].
  destruct (getData e) as [err|data] eqn:Hd; simpl; [by intros ?%elem_of_nil|].
  destruct (readable es) as [l failure]. simpl in *.
  intros [->|Hf]%elem_of_cons.
  - exists e. split; [by left|done].
  - destruct (IH Hf) as (e' & ? & ? & ?). exists e'. split; [by right|done].
Qed.

Lemma plan_elements (basePath : string) (entries : list zip_entry) (c : call) :
  c ∈ plan basePath entries →
  ∃ (e : zip_entry) (data : bytes),
    e ∈ entries ∧ isDirectory e = false ∧ getData e = inr data
    ∧ c ∈ upload_calls (remote_path basePath (entryName e)) data.
Proof.
  unfold plan. intros (f & Hf & Hc)%list_elem_of_In%in_flat_map.
  apply list_elem_of_In, readable_elements in Hf as (e & He & Hname & Hdata).
  apply list_elem_of_filter in He as [Hdir He].
  exists e, f.2. split_and!; [done..|].
  apply list_elem_of_In. by rewrite Hname.
Qed.

(** Every call in the log of [upload-ftp] is the connect, the close, or
    one of the calls of the one upload. *)
Lemma upload_ftp_log_elements (req : upload_ftp_request) (c : call) :
  c ∈ (run (upload_ftp env ftp_reply req)).1 →
  c = Close ∨ c = Access (access_opts env)
  ∨ ∃ buffer, ftp_file req = Some buffer
              ∧ c ∈ upload_calls (default "/htdocs/index.html" (ftp_remotePath req))
                      buffer.
Proof.
  destruct (ftp_file req) as [buffer|] eqn:Hfile.
  - rewrite (upload_ftp_attempt env ftp_reply req buffer Hfile).
    cbv zeta. cbn [fst].
    intros [Hin|E%list_elem_of_singleton]%elem_of_app; [|by left].
    apply attempt_elements in Hin as [[]%elem_of_nil|Hin].
    apply elem_of_cons in Hin as [->|Hin]; [by right; left|].
    right; right. by exists buffer.
  - unfold run, upload_ftp, finally, try_catch, close. rewrite Hfile. simpl.
    intros E%list_elem_of_singleton. by left.
Qed.

(** Every call in the log of [upload-zip] is the connect, the close, or
    one of the calls of a readable file entry of the archive. *)
Lemma upload_zip_log_elements (req : upload_zip_request) (c : call) :
  c ∈ (run (upload_zip env ftp_reply AdmZip req)).1 →
  c = Close ∨ c = Access (access_opts env)
  ∨ ∃ buffer entries e data,
      zip_file req = Some buffer ∧ AdmZip buffer = inr entries
      ∧ e ∈ entries ∧ isDirectory e = false ∧ getData e = inr data
      ∧ c ∈ upload_calls
              (remote_path (default "/htdocs" (zip_basePath req)) (entryName e))
              data.
Proof.
  destruct (zip_file req) as [buffer|] eqn:Hfile.
  - destruct (AdmZip buffer) as [err|entries] eqn:Hzip.
    + unfold run, upload_zip, finally, try_catch, close.
      rewrite Hfile. unfold bind, access, perform. simpl.
      destruct (ftp_reply [] _) as [e|]; [|rewrite Hzip]; simpl;
        (intros [->|[->|[]%elem_of_nil]%elem_of_cons]%elem_of_cons;
         [by right; left|by left]).
    + rewrite (upload_zip_parsed env ftp_reply AdmZip req buffer entries Hfile Hzip).
      cbv zeta. cbn [fst].
      intros [Hin|E%list_elem_of_singleton]%elem_of_app; [|by left].
      apply attempt_elements in Hin as [[]%elem_of_nil|Hin].
      apply elem_of_cons in Hin as [->|Hin]; [by right; left|].
      apply plan_elements in Hin as (e & data & ? & ? & ? & ?).
      right; right. by exists buffer, entries, e, data.
  - unfold run, upload_zip, finally, try_catch, close. rewrite Hfile. simpl.
    intros E%list_elem_of_singleton. by left.
Qed.

End DeployLogs.

(** Whatever the request, the archive and the server's answers, every
    directory that [upload-ftp] or [upload-zip] asks the server to ensure is
    an absolute path in normal form: one slash in front, none at the end, no
    two in a row (also when the remote path itself is relative or has
    doubled slashes). *)
Theorem handlers_ensure_clean_directories (env : process_env)
    (ftp_reply : list call → call → option js_error)
    (AdmZip : bytes → js_error + list zip_entry) (dir : string) :
  (∀ req : upload_ftp_request,
     EnsureDir dir ∈ (run (upload_ftp env ftp_reply req)).1 →
     clean_absolute dir = true)
  ∧ (∀ req : upload_zip_request,
       EnsureDir dir ∈ (run (upload_zip env ftp_reply AdmZip req)).1 →
       clean_absolute dir = true).
Proof.
  split; intros req Hin.
  - apply upload_ftp_log_elements in Hin as [[=]|[[=]|(buffer & _ & Hin)]].
    by apply upload_calls_ensure_clean in Hin as (_ & _ & ?).
  - apply upload_zip_log_elements in Hin
      as [[=]|[[=]|(buffer & entries & e & data & _ & _ & _ & _ & _ & Hin)]].
    by apply upload_calls_ensure_clean in Hin as (_ & _ & ?).
Qed.

Lemma handlers_ensure_clean_directories_witness :
  EnsureDir "/htdocs/a"
    ∈ (run (upload_zip sample_env accepting (archive_of two_files)
              (UploadZipRequest (Some []) (Some "htdocs//")))).1
  ∧ clean_absolute "/htdocs/a" = true.
Proof.
  assert (EnsureDir "/htdocs/a"
            ∈ (run (upload_zip sample_env accepting (archive_of two_files)
                      (UploadZipRequest (Some []) (Some "htdocs//")))).1)
    as Hin by (vm_compute; right; left).
  split; [exact Hin|].
  exact (proj2 (handlers_ensure_clean_directories sample_env accepting
                  (archive_of two_files) "/htdocs/a") _ Hin).
Defined.

(** ** Payload and connection *)

(** Without a payload neither deployment handler connects: the answer is
    400 and the close is the only call.  With a payload the connect is the
    first call. *)
Theorem connect_only_with_payload (env : process_env)
    (ftp_reply : list call → call → option js_error)
    (AdmZip : bytes → js_error + list zip_entry) :
  (∀ req : upload_ftp_request,
     match ftp_file req with
     | None => run (upload_ftp env ftp_reply req)
               = ([Close], Response 400 (ErrorBody "No file. Use field name 'file'."))
     | Some _ => head (run (upload_ftp env ftp_reply req)).1
                 = Some (Access (access_opts env))
     end)
  ∧ (∀ req : upload_zip_request,
       match zip_file req with
       | None => run (upload_zip env ftp_reply AdmZip req)
                 = ([Close],
                    Response 400 (ErrorBody "No zip uploaded. Use field name 'zip'."))
       | Some _ => head (run (upload_zip env ftp_reply AdmZip req)).1
                   = Some (Access (access_opts env))
       end).
Proof.
  split; intros req.
  - unfold run, upload_ftp, finally, try_catch, close.
    destruct (ftp_file req) as [buffer|]; [|done].
    unfold bind, access, perform. simpl.
    destruct (ftp_reply [] _) as [e|]; [done|].
    rewrite uploadBuffer_attempt. simpl.
    destruct (attempt_extends ftp_reply
                (upload_calls (default "/htdocs/index.html" (ftp_remotePath req))
                   buffer) [Access (access_opts env)]) as (done & Hd & _).
    destruct (attempt _ _ _) as [log' [e'|]]; simpl in *; by rewrite Hd.
  - unfold run, upload_zip, finally, try_catch, close.
    destruct (zip_file req) as [buffer|]; [|done].
    unfold bind, access, perform. simpl.
    destruct (ftp_reply [] _) as [e|]; [done|].
    destruct (AdmZip buffer) as [err|entries]; [done|]. simpl.
    rewrite for_entries_attempt. simpl.
    destruct (attempt_extends ftp_reply
                (plan (default "/htdocs" (zip_basePath req)) entries)
                [Access (access_opts env)]) as (done & Hd & _).
    destruct (attempt _ _ _) as [log' [e'|]]; simpl in *; [by rewrite Hd|].
    destruct (readable (files entries)).2; by rewrite Hd.
Qed.

(** When the connect is rejected, both deployment handlers stop there: the
    log is the connect and the close, the answer is 500 with the connect's
    message, and the archive is not even parsed. *)
Theorem connect_failure_stops (env : process_env)
    (ftp_reply : list call → call → option js_error)
    (AdmZip : bytes → js_error + list zip_entry) (e : js_error) :
  ftp_reply [] (Access (access_opts env)) = Some e →
  (∀ (req : upload_ftp_request) (buffer : bytes),
     ftp_file req = Some buffer →
     run (upload_ftp env ftp_reply req)
     = ([Access (access_opts env); Close], Response 500 (ErrorBody (message e))))
  ∧ (∀ (req : upload_zip_request) (buffer : bytes),
       zip_file req = Some buffer →
       run (upload_zip env ftp_reply AdmZip req)
       = ([Access (access_opts env); Close],
          Response 500 (ErrorBody (message e)))).
Proof.
  intros Hrej. split; intros req buffer Hfile.
  - unfold run, upload_ftp, finally, try_catch, close. rewrite Hfile.
    unfold bind, access, perform. simpl. by rewrite Hrej.
  - unfold run, upload_zip, finally, try_catch, close. rewrite Hfile.
    unfold bind, access, perform. simpl. by rewrite Hrej.
Qed.

Lemma connect_failure_stops_witness :
  refusing [] (Access (access_opts sample_env))
    = Some (JsError "connect ECONNREFUSED" None)
  ∧ zip_file zip_request = Some [Byte.x50; Byte.x4b]
  ∧ run (upload_zip sample_env refusing (archive_of two_files) zip_request)
    = ([Access (access_opts sample_env); Close],
       Response 500 (ErrorBody "connect ECONNREFUSED")).
Proof.
  split_and!; [reflexivity..|].
  exact (proj2 (connect_failure_stops sample_env refusing (archive_of two_files)
                  _ eq_refl) zip_request _ eq_refl).
Defined.

(** ** What [upload-zip] uploads *)

Section Uploads.

Variable env : process_env.
Variable ftp_reply : list call → call → option js_error.
Variable AdmZip : bytes → js_error + list zip_entry.

Lemma uploaded_files_app (l1 l2 : list call) :
  uploaded_files (l1 ++ l2) = uploaded_files l1 ++ uploaded_files l2.
Proof. apply omap_app. Qed.

Lemma uploaded_files_upload_calls (remotePath : string) (buffer : bytes) :
  uploaded_files (upload_calls remotePath buffer) = [(remotePath, buffer)].
Proof. unfold upload_calls. by destruct (dirs_of remotePath). Qed.

Lemma uploaded_files_plan (basePath : string) (fs : list (string * bytes)) :
  uploaded_files (flat_map (entry_calls basePath) fs)
  = map (λ f, (remote_path basePath f.1, f.2)) fs.
Proof.
  induction fs as [|f fs IH]; [done|]. cbn [flat_map map].
  unfold entry_calls at 1.
  by rewrite uploaded_files_app, IH, uploaded_files_upload_calls.
Qed.

Lemma readable_Forall2 (es : list zip_entry) :
  (readable es).2 = None →
  Forall2 (λ e f, f.1 = entryName e ∧ getData e = inr f.2) es (readable es).1.
Proof.
  induction es as [|e es IH]; simpl; [by constructor|].
  destruct (getData e) as [err|data] eqn:Hd; [done|].
  destruct (readable es) as [l failure]. simpl in *.
  intros H. constructor; [done|by apply IH].
Qed.

Lemma readable_length_le (es : list zip_entry) :
  (length (readable es).1 ≤ length es)%nat.
Proof.
  induction es as [|e es IH]; simpl; [done|].
  destruct (getData e); simpl; [lia|].
  destruct (readable es) as [l failure]. simpl in *. lia.
Qed.

Lemma uploads_prefix (l1 l2 : list call) :
  l1 `prefix_of` l2 → (uploads l1 ≤ uploads l2)%nat.
Proof. intros [k ->]. rewrite uploads_app. lia. Qed.

Lemma files_only_directories (es : list zip_entry) :
  Forall (λ e, isDirectory e = true) es → files es = [].
Proof.
  unfold files. induction 1 as [|e es He _ IH]; [done|].
  rewrite filter_cons_False; [done|]. by rewrite He.
Qed.

End Uploads.

(** A successful [upload-zip] has uploaded every file entry of the archive,
    once each and in archive order, with the entry's content, to the
    entry's remote path. *)
Theorem upload_zip_success_uploads_every_file (env : process_env)
    (ftp_reply : list call → call → option js_error)
    (AdmZip : bytes → js_error + list zip_entry)
    (req : upload_zip_request) (buffer : bytes) (entries : list zip_entry) :
  zip_file req = Some buffer →
  AdmZip buffer = inr entries →
  status (run (upload_zip env ftp_reply AdmZip req)).2 = 200 →
  Forall2
    (λ e u, u.1 = remote_path (default "/htdocs" (zip_basePath req)) (entryName e)
            ∧ getData e = inr u.2)
    (files entries)
    (uploaded_files (run (upload_zip env ftp_reply AdmZip req)).1).
Proof.
  intros Hfile Hzip.
  rewrite (upload_zip_parsed env ftp_reply AdmZip req buffer entries Hfile Hzip).
  cbv zeta. cbn [fst snd]. unfold zip_answer.
  set (todo := Access _ :: _).
  destruct (attempt ftp_reply [] todo).2 eqn:Hrej; [done|].
  destruct (readable (files entries)).2 eqn:Hread; [done|].
  intros _.
  rewrite (attempt_all ftp_reply todo [] Hrej). unfold todo, plan.
  rewrite app_nil_l, uploaded_files_app. simpl.
  rewrite uploaded_files_plan, app_nil_r.
  apply Forall2_fmap_r.
  eapply Forall2_impl; [by apply readable_Forall2|].
  intros e f [Hname Hdata]. simpl. by rewrite Hname.
Qed.

Lemma upload_zip_success_uploads_every_file_witness :
  zip_file zip_request = Some [Byte.x50; Byte.x4b]
  ∧ archive_of two_files [Byte.x50; Byte.x4b] = inr two_files
  ∧ status (run (upload_zip sample_env accepting (archive_of two_files)
                   zip_request)).2 = 200
  ∧ Forall2
      (λ e u, u.1 = remote_path "/htdocs" (entryName e) ∧ getData e = inr u.2)
      two_files
      [("/htdocs/a/b.txt", [Byte.x62]); ("/htdocs/a/c/d.txt", [Byte.x64])].
Proof.
  split_and!; [reflexivity..|].
  exact (upload_zip_success_uploads_every_file sample_env accepting
           (archive_of two_files) zip_request _ _ eq_refl eq_refl eq_refl).
Defined.

(** In no run does [upload-zip] attempt more uploads than the archive has
    file entries; without a payload, or with one that does not parse, it
    attempts none. *)
Theorem upload_zip_upload_bound (env : process_env)
    (ftp_reply : list call → call → option js_error)
    (AdmZip : bytes → js_error + list zip_entry) (req : upload_zip_request) :
  (uploads (run (upload_zip env ftp_reply AdmZip req)).1
   ≤ match zip_file req with
     | None => 0
     | Some buffer =>
         match AdmZip buffer with
         | inl _ => 0
         | inr entries => length (files entries)
         end
     end)%nat.
Proof.
  destruct (zip_file req) as [buffer|] eqn:Hfile.
  - destruct (AdmZip buffer) as [err|entries] eqn:Hzip.
    + unfold run, upload_zip, finally, try_catch, close.
      rewrite Hfile. unfold bind, access, perform. simpl.
      destruct (ftp_reply [] _) as [e|]; [done|]. by rewrite Hzip.
    + rewrite (upload_zip_parsed env ftp_reply AdmZip req buffer entries Hfile Hzip).
      cbv zeta. cbn [fst].
      destruct (attempt_extends ftp_reply
                  (Access (access_opts env)
                     :: plan (default "/htdocs" (zip_basePath req)) entries) [])
        as (done & -> & Hpre).
      apply uploads_prefix in Hpre.
      rewrite uploads_cons in Hpre. simpl in Hpre. unfold plan in Hpre.
      rewrite uploads_flat_map in Hpre.
      pose proof (readable_length_le (files entries)).
      rewrite app_nil_l, uploads_app. unfold uploads at 2. simpl. lia.
  - unfold run, upload_zip, finally, try_catch, close. by rewrite Hfile.
Qed.

(** An archive that holds directory entries only: the handler connects and
    closes, ensures and uploads nothing, and, the connect accepted, answers
    200 with the number of entries. *)
Theorem upload_zip_only_directories (env : process_env)
    (ftp_reply : list call → call → option js_error)
    (AdmZip : bytes → js_error + list zip_entry)
    (req : upload_zip_request) (buffer : bytes) (entries : list zip_entry) :
  zip_file req = Some buffer →
  AdmZip buffer = inr entries →
  Forall (λ e, isDirectory e = true) entries →
  (run (upload_zip env ftp_reply AdmZip req)).1
    = [Access (access_opts env); Close]
  ∧ (ftp_reply [] (Access (access_opts env)) = None →
     (run (upload_zip env ftp_reply AdmZip req)).2
       = Response 200 (ZipOk (length entries))).
Proof.
  intros Hfile Hzip Hdirs.
  rewrite (upload_zip_parsed env ftp_reply AdmZip req buffer entries Hfile Hzip).
  pose proof (files_only_directories entries Hdirs) as Hfiles.
  unfold plan, zip_answer. rewrite Hfiles. simpl.
  by destruct (ftp_reply [] _).
Qed.

Lemma upload_zip_only_directories_witness :
  zip_file zip_request = Some [Byte.x50; Byte.x4b]
  ∧ archive_of only_directories [Byte.x50; Byte.x4b] = inr only_directories
  ∧ Forall (λ e, isDirectory e = true) only_directories
  ∧ (run (upload_zip sample_env accepting (archive_of only_directories)
            zip_request)).1
    = [Access (access_opts sample_env); Close].
Proof.
  assert (Forall (λ e, isDirectory e = true) only_directories) as Hd
    by (by repeat constructor).
  split_and!; [reflexivity..|exact Hd|].
  exact (proj1 (upload_zip_only_directories sample_env accepting
                  (archive_of only_directories) zip_request _ _
                  eq_refl eq_refl Hd)).
Defined.

(** [upload-ftp] with a payload answers 200 or 500.  It answers 200 exactly
    when the connect, the directory and the upload were all accepted; the
    log is then these calls and the close, the payload went to the remote
    path as it was given, and that path is what the answer reports.  In no
    run does it upload anything but the payload to that path. *)
Theorem upload_ftp_outcome (env : process_env)
    (ftp_reply : list call → call → option js_error)
    (req : upload_ftp_request) (buffer : bytes) :
  ftp_file req = Some buffer →
  let remotePath := default "/htdocs/index.html" (ftp_remotePath req) in
  let r := run (upload_ftp env ftp_reply req) in
  (status r.2 = 200 ∨ status r.2 = 500)
  ∧ (status r.2 = 200 →
     r = (Access (access_opts env) :: upload_calls remotePath buffer ++ [Close],
          Response 200 (FtpOk remotePath))
     ∧ uploaded_files r.1 = [(remotePath, buffer)])
  ∧ (uploaded_files r.1 = [] ∨ uploaded_files r.1 = [(remotePath, buffer)]).
Proof.
  intros Hfile remotePath r. subst r.
  rewrite (upload_ftp_attempt env ftp_reply req buffer Hfile).
  cbv zeta. cbn [fst snd]. fold remotePath.
  set (todo := Access _ :: _).
  destruct (attempt ftp_reply [] todo) as [log rej] eqn:Hatt. simpl.
  assert (rej = None → log = todo) as Hall.
  { intros ->. pose proof (attempt_all ftp_reply todo []) as H.
    rewrite Hatt in H. by apply H. }
  split_and!.
  - destruct rej; [by right|by left].
  - destruct rej as [e|]; [done|]. intros _. rewrite (Hall eq_refl).
    split; [done|]. unfold todo. simpl.
    by rewrite uploaded_files_app, uploaded_files_upload_calls.
  - destruct (attempt_extends ftp_reply todo []) as (done & Hd & [k Hk]).
    rewrite Hatt in Hd. simpl in Hd. subst log.
    rewrite uploaded_files_app, app_nil_r.
    assert (uploaded_files done ++ uploaded_files k = [(remotePath, buffer)])
      as Hsplit.
    { rewrite <-uploaded_files_app, <-Hk. unfold todo. simpl.
      apply uploaded_files_upload_calls. }
    destruct (uploaded_files done) as [|u us]; [by left|right].
    destruct us; [|by destruct us, (uploaded_files k)].
    simpl in Hsplit. by injection Hsplit as -> _.
Qed.

Lemma upload_ftp_outcome_witness :
  ftp_file (UploadFtpRequest (Some [Byte.x68]) (Some "site//index.html"))
    = Some [Byte.x68]
  ∧ status (run (upload_ftp sample_env accepting
                   (UploadFtpRequest (Some [Byte.x68])
                      (Some "site//index.html")))).2 = 200
  ∧ run (upload_ftp sample_env accepting
           (UploadFtpRequest (Some [Byte.x68]) (Some "site//index.html")))
    = ([ Access (access_opts sample_env); EnsureDir "/site";
         UploadFrom [Byte.x68] "site//index.html"; Close ],
       Response 200 (FtpOk "site//index.html")).
Proof.
  split_and!; [reflexivity..|].
  exact (proj1 (proj1 (proj2 (upload_ftp_outcome sample_env accepting
                                (UploadFtpRequest (Some [Byte.x68])
                                   (Some "site//index.html"))
                                [Byte.x68] eq_refl)) eq_refl)).
Defined.

(** The count reported for [two_files] against the uploads in the log. *)
Lemma upload_zip_reports_entry_count_witness :
  zip_file zip_request = Some [Byte.x50; Byte.x4b]
  ∧ archive_of two_files [Byte.x50; Byte.x4b] = inr two_files
  ∧ status (run (upload_zip sample_env accepting (archive_of two_files)
                   zip_request)).2 = 200
  ∧ (run (upload_zip sample_env accepting (archive_of two_files) zip_request)).2
    = Response 200 (ZipOk 2)
  ∧ uploads (run (upload_zip sample_env accepting (archive_of two_files)
                    zip_request)).1 = 2.
Proof.
  split_and!; [reflexivity..| |].
  - exact (proj1 (upload_zip_reports_entry_count sample_env accepting
                    (archive_of two_files) zip_request _ _
                    eq_refl eq_refl eq_refl)).
  - exact (proj2 (upload_zip_reports_entry_count sample_env accepting
                    (archive_of two_files) zip_request _ _
                    eq_refl eq_refl eq_refl)).
Defined.

(** ** Required fields and the calls to the store *)

(** [get-file] calls the store exactly when [owner], [repo] and [path] are
    all present and non-empty, and then once; otherwise it answers 400
    without any call. *)
Theorem get_file_requires_fields
    (octokit_getContent : get_content_params → js_error + content_data)
    (base64_to_utf8 : string → string) (b : get_file_body) :
  if JsString.truthy (gf_owner b) && JsString.truthy (gf_repo b)
     && JsString.truthy (gf_path b)
  then (run (get_file octokit_getContent base64_to_utf8 b)).1
       = [GetContent {| gc_owner := gf_owner b; gc_repo := gf_repo b;
                        gc_path := gf_path b; gc_ref := gf_ref b |}]
  else run (get_file octokit_getContent base64_to_utf8 b)
       = ([], Response 400 (ErrorBody "owner, repo, and path are required")).
Proof.
  destruct (JsString.truthy (gf_owner b)) eqn:Ho;
    [|by unfold run, get_file, try_catch; rewrite Ho].
  destruct (JsString.truthy (gf_repo b)) eqn:Hr;
    [|by unfold run, get_file, try_catch; rewrite Ho, Hr].
  destruct (JsString.truthy (gf_path b)) eqn:Hp;
    [|by unfold run, get_file, try_catch; rewrite Ho, Hr, Hp].
  simpl. by rewrite (get_file_run octokit_getContent base64_to_utf8 b Ho Hr Hp).
Qed.

Lemma put_file_cases
    (octokit_getContent : get_content_params → js_error + content_data)
    (octokit_createOrUpdateFileContents : put_params → js_error + put_result)
    (utf8_to_base64 : string → string) (b : put_file_body) :
  if JsString.truthy (pf_owner b) && JsString.truthy (pf_repo b)
     && JsString.truthy (pf_path b) && JsString.truthy (pf_content b)
     && JsString.truthy (pf_message b)
  then ∃ (sub : put_params) (content : string),
         (run (put_file octokit_getContent octokit_createOrUpdateFileContents
                 utf8_to_base64 b)).1
         = [GetContent (probe_params b); CreateOrUpdateFileContents sub]
         ∧ pf_content b = Some content
         ∧ pp_content sub = utf8_to_base64 content
         ∧ pp_owner sub = pf_owner b ∧ pp_repo sub = pf_repo b
         ∧ pp_path sub = pf_path b ∧ pp_message sub = pf_message b
         ∧ pp_branch sub = pf_branch b
  else run (put_file octokit_getContent octokit_createOrUpdateFileContents
              utf8_to_base64 b)
       = ([], Response 400
                (ErrorBody "owner, repo, path, content, message are required")).
Proof.
  destruct (JsString.truthy (pf_owner b)) eqn:Ho;
    [|by unfold run, put_file, try_catch; rewrite Ho].
  destruct (JsString.truthy (pf_repo b)) eqn:Hr;
    [|by unfold run, put_file, try_catch; rewrite Ho, Hr].
  destruct (JsString.truthy (pf_path b)) eqn:Hp;
    [|by unfold run, put_file, try_catch; rewrite Ho, Hr, Hp].
  destruct (JsString.truthy (pf_content b)) eqn:Hc;
    [|by unfold run, put_file, try_catch; rewrite Ho, Hr, Hp, Hc].
  destruct (JsString.truthy (pf_message b)) eqn:Hm;
    [|by unfold run, put_file, try_catch; rewrite Ho, Hr, Hp, Hc, Hm].
  simpl.
  rewrite (put_file_run octokit_getContent octokit_createOrUpdateFileContents
             utf8_to_base64 b Ho Hr Hp Hc Hm).
  destruct (pf_content b) as [content|] eqn:Hcontent; [|done].
  eexists _, content. simpl. by split_and!.
Qed.

(** [put-file] calls the store exactly when [owner], [repo], [path],
    [content] and [message] are all present and non-empty; otherwise it
    answers 400 without any call.  When it does call, the submission names
    the owner, repository, path, message and branch of the request and
    carries the encoded content. *)
Theorem put_file_requires_fields
    (octokit_getContent : get_content_params → js_error + content_data)
    (octokit_createOrUpdateFileContents : put_params → js_error + put_result)
    (utf8_to_base64 : string → string) (b : put_file_body) :
  if JsString.truthy (pf_owner b) && JsString.truthy (pf_repo b)
     && JsString.truthy (pf_path b) && JsString.truthy (pf_content b)
     && JsString.truthy (pf_message b)
  then ∃ (sub : put_params) (content : string),
         (run (put_file octokit_getContent octokit_createOrUpdateFileContents
                 utf8_to_base64 b)).1
         = [GetContent (probe_params b); CreateOrUpdateFileContents sub]
         ∧ pf_content b = Some content
         ∧ pp_content sub = utf8_to_base64 content
         ∧ pp_owner sub = pf_owner b ∧ pp_repo sub = pf_repo b
         ∧ pp_path sub = pf_path b ∧ pp_message sub = pf_message b
         ∧ pp_branch sub = pf_branch b
  else run (put_file octokit_getContent octokit_createOrUpdateFileContents
              utf8_to_base64 b)
       = ([], Response 400
                (ErrorBody "owner, repo, path, content, message are required")).
Proof.
  exact (put_file_cases octokit_getContent octokit_createOrUpdateFileContents
           utf8_to_base64 b).
Qed.

(** [put-file] never retries: whatever the request and whatever the store
    answers, the log holds at most one probe and at most one write.  A write
    the store rejects (a stale version token, say) is answered 500 with the
    store's message, and a write the store accepts is answered 200. *)
Theorem put_file_single_attempt
    (octokit_getContent : get_content_params → js_error + content_data)
    (octokit_createOrUpdateFileContents : put_params → js_error + put_result)
    (utf8_to_base64 : string → string) (b : put_file_body) :
  let r := run (put_file octokit_getContent octokit_createOrUpdateFileContents
                  utf8_to_base64 b) in
  (length (List.filter is_probe r.1) ≤ 1)%nat
  ∧ (length (List.filter is_write r.1) ≤ 1)%nat
  ∧ (∀ sub e, CreateOrUpdateFileContents sub ∈ r.1 →
              octokit_createOrUpdateFileContents sub = inl e →
              r.2 = Response 500 (ErrorBody (message e)))
  ∧ (∀ sub result, CreateOrUpdateFileContents sub ∈ r.1 →
                   octokit_createOrUpdateFileContents sub = inr result →
                   status r.2 = 200).
Proof.
  intros r. subst r.
  pose proof (put_file_cases octokit_getContent
                octokit_createOrUpdateFileContents utf8_to_base64 b) as Hreq.
  destruct (JsString.truthy (pf_owner b)) eqn:Ho; simpl in Hreq;
    [|rewrite Hreq; simpl; split_and!; [lia..|by intros ?? ?%elem_of_nil
                                            |by intros ?? ?%elem_of_nil]].
  destruct (JsString.truthy (pf_repo b)) eqn:Hr; simpl in Hreq;
    [|rewrite Hreq; simpl; split_and!; [lia..|by intros ?? ?%elem_of_nil
                                            |by intros ?? ?%elem_of_nil]].
  destruct (JsString.truthy (pf_path b)) eqn:Hp; simpl in Hreq;
    [|rewrite Hreq; simpl; split_and!; [lia..|by intros ?? ?%elem_of_nil
                                            |by intros ?? ?%elem_of_nil]].
  destruct (JsString.truthy (pf_content b)) eqn:Hc; simpl in Hreq;
    [|rewrite Hreq; simpl; split_and!; [lia..|by intros ?? ?%elem_of_nil
                                            |by intros ?? ?%elem_of_nil]].
  destruct (JsString.truthy (pf_message b)) eqn:Hm; simpl in Hreq;
    [|rewrite Hreq; simpl; split_and!; [lia..|by intros ?? ?%elem_of_nil
                                            |by intros ?? ?%elem_of_nil]].
  clear Hreq.
  rewrite (put_file_run octokit_getContent octokit_createOrUpdateFileContents
             utf8_to_base64 b Ho Hr Hp Hc Hm).
  cbv zeta. cbn [fst snd]. split_and!; [simpl; lia..| |].
  - intros sub e [[=]|[[= <-]|[]%elem_of_nil]%elem_of_cons]%elem_of_cons Hrej.
    by rewrite Hrej.
  - intros sub result
      [[=]|[[= <-]|[]%elem_of_nil]%elem_of_cons]%elem_of_cons Hok.
    by rewrite Hok.
Qed.

Lemma put_file_single_attempt_witness :
  CreateOrUpdateFileContents
    {| pp_owner := Some "octo"; pp_repo := Some "site";
       pp_path := Some "docs/a.txt"; pp_message := Some "Update a.txt";
       pp_content := "hello"; pp_sha := Some "3b18e512"; pp_branch := None |}
    ∈ (run (put_file probe_file store_conflict sample_codec put_request)).1
  ∧ (run (put_file probe_file store_conflict sample_codec put_request)).2
    = Response 500 (ErrorBody "docs/a.txt does not match 3b18e512").
Proof.
  assert (CreateOrUpdateFileContents
            {| pp_owner := Some "octo"; pp_repo := Some "site";
               pp_path := Some "docs/a.txt"; pp_message := Some "Update a.txt";
               pp_content := "hello"; pp_sha := Some "3b18e512";
               pp_branch := None |}
            ∈ (run (put_file probe_file store_conflict sample_codec
                      put_request)).1) as Hin by (vm_compute; right; left).
  split; [exact Hin|].
  exact (proj1 (proj2 (proj2 (put_file_single_attempt probe_file store_conflict
                                sample_codec put_request)))
           _ _ Hin eq_refl).
Defined.

(** Writing and reading back: when the store serves, for the locator of the
    write, a file whose content decodes like the content that [put-file]
    submitted, [get-file] answers 200 with the text that was written
    (given that decoding undoes encoding). *)
Theorem put_then_get_round_trip
    (probe : get_content_params → js_error + content_data)
    (octokit_createOrUpdateFileContents : put_params → js_error + put_result)
    (octokit_getContent : get_content_params → js_error + content_data)
    (utf8_to_base64 base64_to_utf8 : string → string)
    (b : put_file_body) (content stored : string) (sub : put_params)
    (fields : gmap string string) :
  (∀ s, base64_to_utf8 (utf8_to_base64 s) = s) →
  pf_content b = Some content →
  CreateOrUpdateFileContents sub
    ∈ (run (put_file probe octokit_createOrUpdateFileContents
              utf8_to_base64 b)).1 →
  octokit_getContent (probe_params b) = inr (Single fields) →
  fields !! "content" = Some stored →
  base64_to_utf8 stored = base64_to_utf8 (pp_content sub) →
  run (get_file octokit_getContent base64_to_utf8
         {| gf_owner := pf_owner b; gf_repo := pf_repo b;
            gf_path := pf_path b; gf_ref := pf_branch b |})
  = ([GetContent (probe_params b)], Response 200 (TextBody content)).
Proof.
  intros Hcodec Hcontent Hin Hget Hfield Hstored.
  pose proof (put_file_cases probe octokit_createOrUpdateFileContents
                utf8_to_base64 b) as Hreq.
  destruct (JsString.truthy (pf_owner b)) eqn:Ho; simpl in Hreq;
    [|by rewrite Hreq in Hin; apply elem_of_nil in Hin].
  destruct (JsString.truthy (pf_repo b)) eqn:Hr; simpl in Hreq;
    [|by rewrite Hreq in Hin; apply elem_of_nil in Hin].
  destruct (JsString.truthy (pf_path b)) eqn:Hp; simpl in Hreq;
    [|by rewrite Hreq in Hin; apply elem_of_nil in Hin].
  destruct (JsString.truthy (pf_content b)) eqn:Hc; simpl in Hreq;
    [|by rewrite Hreq in Hin; apply elem_of_nil in Hin].
  destruct (JsString.truthy (pf_message b)) eqn:Hm; simpl in Hreq;
    [|by rewrite Hreq in Hin; apply elem_of_nil in Hin].
  destruct Hreq as (sub' & content' & Hlog & Hcontent' & Henc & _).
  rewrite Hlog in Hin.
  apply elem_of_cons in Hin as [[=]|Hin].
  apply list_elem_of_singleton in Hin. injection Hin as ->.
  assert (content' = content) as -> by congruence.
  rewrite (get_file_run octokit_getContent base64_to_utf8
             {| gf_owner := pf_owner b; gf_repo := pf_repo b;
                gf_path := pf_path b; gf_ref := pf_branch b |} Ho Hr Hp).
  cbv zeta. unfold probe_params in *. simpl. rewrite Hget, Hfield.
  by rewrite Hstored, Henc, Hcodec.
Qed.

Lemma put_then_get_round_trip_witness :
  (∀ s, sample_codec (sample_codec s) = s)
  ∧ pf_content put_request = Some "hello"
  ∧ run (get_file (λ _, inr (Single {[ "content" := "hello" ]})) sample_codec
           {| gf_owner := pf_owner put_request; gf_repo := pf_repo put_request;
              gf_path := pf_path put_request; gf_ref := pf_branch put_request |})
    = ([GetContent (probe_params put_request)], Response 200 (TextBody "hello")).
Proof.
  split; [done|]. split; [reflexivity|].
  refine (put_then_get_round_trip probe_not_found store_accepts
            (λ _, inr (Single {[ "content" := "hello" ]}))
            sample_codec sample_codec put_request "hello" "hello"
            {| pp_owner := Some "octo"; pp_repo := Some "site";
               pp_path := Some "docs/a.txt"; pp_message := Some "Update a.txt";
               pp_content := "hello"; pp_sha := None; pp_branch := None |}
            {[ "content" := "hello" ]} _ eq_refl _ eq_refl eq_refl eq_refl).
  - done.
  - vm_compute. right. left.
Defined.
